(** * Prompt Engineer Middleware: a shallow embedding and its properties

    The development follows the Python sources

    - [src/prompt-engineer.py]   (class [PromptEnhancement], class [PromptEngineer])
    - [src/prompt-middleware.py] (the registries and the three endpoints)
    - [src/llm-providers.py]     (the connectors, as far as their constructors go)
    - [src/models.py]            (the request and response records)

    Python [str] values are Rocq strings (sequences of 8-bit characters),
    Python [int] values are [Z], dictionaries are [gmap]s unless their
    insertion order is observable, mutable objects are threaded explicitly,
    and a raised exception is the [Raise] case of a result type. *)

From Stdlib Require Import ZArith Ascii String List Bool Lia DecimalString.
From stdpp Require Import base option list gmap strings.

Local Open Scope Z_scope.

(* ================================================================== *)
(** * Python strings                                                   *)
(* ================================================================== *)

(** [str.lower] on the ASCII range: the letters A .. Z move to a .. z and
    every other character is kept.  Python lower-cases letters outside
    that range as well; the keywords that the lower-cased prompt is
    searched for are all ASCII. *)
Definition lower_ascii (c : ascii) : ascii :=
  let n := nat_of_ascii c in
  if (Nat.leb 65 n && Nat.leb n 90)%bool then ascii_of_nat (n + 32) else c.

Fixpoint lower (s : string) : string :=
  match s with
  | EmptyString => EmptyString
  | String c s' => String (lower_ascii c) (lower s')
  end.

(** [s.startswith(term)]. *)
Fixpoint startswith (term s : string) : bool :=
  match term, s with
  | EmptyString, _ => true
  | String _ _, EmptyString => false
  | String a term', String b s' => if Ascii.eqb a b then startswith term' s' else false
  end.

(** [term in s] for strings: [term] occurs in [s] at some offset. *)
Fixpoint contains (term s : string) : bool :=
  startswith term s ||
  match s with
  | EmptyString => false
  | String _ s' => contains term s'
  end.

(** [any(term in s for term in terms)]. *)
Definition any_in (terms : list string) (s : string) : bool :=
  existsb (fun term => contains term s) terms.

(* ================================================================== *)
(** * Category detection ([PromptEngineer.detect_prompt_type])         *)
(* ================================================================== *)

Definition coding_terms : list string :=
  ["code"; "function"; "program"; "script"; "develop"; "bug"; "debug"; "coding"].

Definition creative_terms : list string :=
  ["write"; "story"; "creative"; "design"; "article"; "blog"].

Definition analytical_terms : list string :=
  ["analyze"; "analysis"; "research"; "evaluate"; "compare"; "explain"; "reason"].

Definition detect_prompt_type (prompt : string) : string :=
  let prompt_lower := lower prompt in
  if any_in coding_terms prompt_lower then "coding"
  else if any_in creative_terms prompt_lower then "creative"
  else if any_in analytical_terms prompt_lower then "analytical"
  else "default".

(* ================================================================== *)
(** * Exceptions and results                                           *)
(* ================================================================== *)

(** A raised Python exception: its class name and the text [str(e)]. *)
Record Exception := mkException { exc_class : string; exc_str : string }.

Inductive Result (A : Type) : Type :=
| Ok (a : A)
| Raise (e : Exception).
Arguments Ok {A} a.
Arguments Raise {A} e.

Definition is_ok {A} (r : Result A) : bool :=
  match r with Ok _ => true | Raise _ => false end.

(* ================================================================== *)
(** * The template language ([str.format] with [prompt=...])           *)
(* ================================================================== *)

Definition dq : string := String "034"%char EmptyString.
Definition nl : string := String "010"%char EmptyString.
Definition sq : string := "'".

(** The characters that start a conversion, a format specification, an
    attribute or index access, or a nested field inside a replacement
    field. *)
Definition is_field_operator (c : ascii) : bool :=
  match c with
  | "!" | ":" | "." | "[" | "{" => true
  | _ => false
  end%char.

Fixpoint has_field_operator (name : string) : bool :=
  match name with
  | EmptyString => false
  | String c name' => is_field_operator c || has_field_operator name'
  end.

(** The characters of a field name that the embedding speaks about:
    printable ASCII, without the operators above and without the quote
    and the backslash.  For a name made of such characters
    [repr(name)] is the name between two quotes, and the only decimal
    digits are 0 .. 9.  Bytes above 127 are parts of characters outside
    ASCII, among them the digits of other scripts, which [str.format]
    reads as numbers too. *)
Definition is_plain (c : ascii) : bool :=
  let n := nat_of_ascii c in
  (Nat.leb 32 n && Nat.leb n 126 && negb (is_field_operator c)
   && negb (Nat.eqb n 39)        (* the quote *)
   && negb (Nat.eqb n 92))%bool. (* the backslash *)

Fixpoint plain_name (name : string) : bool :=
  match name with
  | EmptyString => true
  | String c name' => is_plain c && plain_name name'
  end.

Definition is_digit (c : ascii) : bool :=
  let n := nat_of_ascii c in (Nat.leb 48 n && Nat.leb n 57)%bool.

Definition digit_value (c : ascii) : Z := Z.of_nat (nat_of_ascii c) - 48.

(** [sys.maxsize], for the 64-bit interpreter. *)
Definition PY_SSIZE_T_MAX : Z := 9223372036854775807.

(** How [str.format] reads a field name as a position: digit by digit
    from the left, giving up at the first character that is no digit,
    and refusing a number above [sys.maxsize] as soon as the digits
    read so far exceed it.  The empty name is automatic numbering, and
    the first automatic number is 0. *)
Inductive FieldIndex :=
| NotAnIndex
| TooManyDigits
| Index (i : Z).

Fixpoint get_integer (accumulator : Z) (name : string) : FieldIndex :=
  match name with
  | EmptyString => Index accumulator
  | String c name' =>
      if is_digit c then
        if (PY_SSIZE_T_MAX - digit_value c) / 10 <? accumulator then TooManyDigits
        else get_integer (accumulator * 10 + digit_value c) name'
      else NotAnIndex
  end.

(** A natural number in decimal, as [%d] prints it. *)
Definition decimal (i : Z) : string :=
  NilZero.string_of_uint (N.to_uint (Z.to_N i)).

(** The value of one replacement field [{name}] in
    [template.format(prompt=prompt)]: there are no positional arguments
    and [prompt] is the only keyword.  A name that reads as a position
    raises [IndexError], any other name than [prompt] raises
    [KeyError], whose text is [repr(name)].

    Fields that carry a conversion ([!r]), a format specification
    ([:>10]), an attribute or index access or a nested field, and names
    with a character that is not plain, are outside the fragment that
    is modelled; the embedding answers [Raise] with the class
    [Unmodelled] for them.  Hence every [Ok] of [format] below is the
    value that [str.format] returns and every [Raise] of another class
    is the exception that [str.format] raises, while a [Raise] with the
    class [Unmodelled] says nothing about Python. *)
Definition field_value (name prompt : string) : Result string :=
  if negb (plain_name name) then
    Raise (mkException "Unmodelled" name)
  else
    match get_integer 0 name with
    | TooManyDigits =>
        Raise (mkException "ValueError" "Too many decimal digits in format string")
    | Index i =>
        Raise (mkException "IndexError"
                 ("Replacement index " +:+ decimal i
                  +:+ " out of range for positional args tuple"))
    | NotAnIndex =>
        if String.eqb name "prompt" then Ok prompt
        else Raise (mkException "KeyError" (sq +:+ name +:+ sq))
    end.

(** The scanner of [str.format] reads the template one character at a
    time.  [Text]: literal text is being copied.  [Opened]: a [{] has
    just been read, a second one makes it a literal brace.  [Closed]: a
    [}] has just been read in literal text, only a second one is legal.
    [Field name]: the characters of a replacement field read so far.
    A template that ends inside a field is refused with a message that
    depends on the operators read in it; the embedding gives the
    message for a field without operators and answers [Unmodelled]
    otherwise. *)
Inductive Scan :=
| Text
| Opened
| Closed
| Field (name : string).

Definition emit (c : ascii) (rest : Result string) : Result string :=
  match rest with
  | Ok out => Ok (String c out)
  | Raise e => Raise e
  end.

(** A field is replaced by its value before the scan goes on, so the
    first failure from the left is the one raised. *)
Definition emit_field (name prompt : string) (rest : Result string) : Result string :=
  match field_value name prompt with
  | Ok v =>
      match rest with
      | Ok out => Ok (v +:+ out)
      | Raise e => Raise e
      end
  | Raise e => Raise e
  end.

Fixpoint format_from (state : Scan) (template prompt : string) : Result string :=
  match template with
  | EmptyString =>
      match state with
      | Text => Ok EmptyString
      | Opened =>
          Raise (mkException "ValueError" "Single '{' encountered in format string")
      | Closed =>
          Raise (mkException "ValueError" "Single '}' encountered in format string")
      | Field name =>
          if has_field_operator name then Raise (mkException "Unmodelled" name)
          else Raise (mkException "ValueError" "expected '}' before end of string")
      end
  | String c rest =>
      match state with
      | Text =>
          if Ascii.eqb c "{" then format_from Opened rest prompt
          else if Ascii.eqb c "}" then format_from Closed rest prompt
          else emit c (format_from Text rest prompt)
      | Opened =>
          if Ascii.eqb c "{" then emit "{" (format_from Text rest prompt)
          else if Ascii.eqb c "}"
          then emit_field EmptyString prompt (format_from Text rest prompt)
          else format_from (Field (String c EmptyString)) rest prompt
      | Closed =>
          if Ascii.eqb c "}" then emit "}" (format_from Text rest prompt)
          else Raise (mkException "ValueError"
                        "Single '}' encountered in format string")
      | Field name =>
          if Ascii.eqb c "}"
          then emit_field name prompt (format_from Text rest prompt)
          else format_from (Field (name +:+ String c EmptyString)) rest prompt
      end
  end%char.

(** [template.format(prompt=prompt)]. *)
Definition format (template prompt : string) : Result string :=
  format_from Text template prompt.

(* ================================================================== *)
(** * Enhancement rules ([PromptEngineer.load_enhancement_rules])      *)
(* ================================================================== *)

(** One entry of [enhancement_rules]: the dictionary with the keys
    ["system_prompt"] and ["template"]. *)
Record EnhancementRule := mkRule {
  system_prompt : string;
  template : string
}.

(** The sixteen blanks that indent every line of the triple-quoted
    templates in the source. *)
Definition indent : string := "                ".

Definition coding_system_prompt : string :=
  "You are a professional software developer with expertise in clean code and best practices.".

Definition coding_template : string :=
  String.concat nl
    [ "";
      indent +:+ "Consider this coding request: " +:+ dq +:+ "{prompt}" +:+ dq;
      indent;
      indent +:+ "Enhance this request by:";
      indent +:+ "1. Clarifying the programming language if not specified";
      indent +:+ "2. Adding requirements for error handling and edge cases";
      indent +:+ "3. Specifying if documentation is needed";
      indent +:+ "4. Asking for proper formatting and modular design";
      indent +:+ "5. Requesting appropriate comments and variable naming";
      indent;
      indent +:+ "Return ONLY the enhanced prompt without explanations or preamble.";
      indent ].

Definition creative_system_prompt : string :=
  "You are a creative writing and content creation expert.".

Definition creative_template : string :=
  String.concat nl
    [ "";
      indent +:+ "Consider this creative request: " +:+ dq +:+ "{prompt}" +:+ dq;
      indent;
      indent +:+ "Enhance this request by:";
      indent +:+ "1. Clarifying the style, tone, and format";
      indent +:+ "2. Specifying target audience if relevant";
      indent +:+ "3. Adding structure guidance";
      indent +:+ "4. Including any relevant constraints";
      indent +:+ "5. Specifying length or detail level";
      indent;
      indent +:+ "Return ONLY the enhanced prompt without explanations or preamble.";
      indent ].

Definition analytical_system_prompt : string :=
  "You are an analytical expert specializing in structured thinking and clear analysis.".

Definition analytical_template : string :=
  String.concat nl
    [ "";
      indent +:+ "Consider this analytical request: " +:+ dq +:+ "{prompt}" +:+ dq;
      indent;
      indent +:+ "Enhance this request by:";
      indent +:+ "1. Adding structure for step-by-step reasoning";
      indent +:+ "2. Specifying the depth of analysis needed";
      indent +:+ "3. Clarifying what metrics or frameworks to use";
      indent +:+ "4. Adding requirements for evidence or citations";
      indent +:+ "5. Requesting specific output format if helpful";
      indent;
      indent +:+ "Return ONLY the enhanced prompt without explanations or preamble.";
      indent ].

Definition default_system_prompt : string :=
  "You are an expert prompt engineer who improves user prompts for better results.".

Definition default_template : string :=
  String.concat nl
    [ "";
      indent +:+ "Consider this prompt: " +:+ dq +:+ "{prompt}" +:+ dq;
      indent;
      indent +:+ "Enhance this prompt to be more effective by:";
      indent +:+ "1. Adding relevant context or specificity";
      indent +:+ "2. Clarifying any ambiguous aspects";
      indent +:+ "3. Structuring multi-part requests logically";
      indent +:+ "4. Adding appropriate constraints or guidance";
      indent +:+ "5. Preserving the original intent while improving clarity";
      indent;
      indent +:+ "Return ONLY the enhanced prompt without explanations or preamble.";
      indent ].

(** The dictionary literal assigned to [self.enhancement_rules]. *)
Definition default_rules : gmap string EnhancementRule :=
  <["coding" := mkRule coding_system_prompt coding_template]>
  (<["creative" := mkRule creative_system_prompt creative_template]>
  (<["analytical" := mkRule analytical_system_prompt analytical_template]>
  (<["default" := mkRule default_system_prompt default_template]> ∅))).

(** What reading [enhancement_rules.json] gives: [open] raises
    [FileNotFoundError], [json.load] raises [JSONDecodeError], or the file
    holds a mapping from category names to rules.

    The last case is typed: a JSON object whose values are objects with
    the two keys ["system_prompt"] and ["template"], both strings.
    [json.load] accepts any JSON text, so the source can load more than
    that.  A text that is no object makes [update] raise in the
    constructor; an entry without ["template"] makes [enhance_prompt]
    raise [KeyError] before its [try]; an entry without
    ["system_prompt"] makes it raise [KeyError] inside the [try], where
    it is caught, and the prompt comes back without any adapter call.
    None of these files is a value of [CustomRules], and no statement
    below speaks about them. *)
Inductive CustomRules :=
| FileNotFound
| JSONDecodeError
| Loaded (custom_rules : gmap string EnhancementRule).

(** [dict.update]: the entries of [other] replace those of [d] key by
    key, the remaining entries of [d] stay. *)
Definition dict_update {V} (d other : gmap string V) : gmap string V :=
  other ∪ d.

(** Logged events.  Each constructor is one logging call of the source,
    with the values interpolated into its message. *)
Inductive LogRecord :=
| NoCustomRules                              (* info,    prompt_engineer.core *)
| EnhancedPromptOfType (prompt_type : string) (* info   *)
| OriginalText (prompt : string)             (* debug   *)
| EnhancedText (enhanced_prompt : string)    (* debug   *)
| ErrorEnhancing (e : Exception)             (* error   *)
| RecordedRating (rating index : Z)          (* info    *)
| InvalidEnhancementIndex (index : Z)        (* warning *)
| ErrorProcessing (e : Exception)            (* error,   prompt_engineer *)
| ErrorFeedback (e : Exception).             (* error   *)

Inductive Level := LDebug | LInfo | LWarning | LError.

Definition levelname (r : LogRecord) : Level :=
  match r with
  | NoCustomRules | EnhancedPromptOfType _ | RecordedRating _ _ => LInfo
  | OriginalText _ | EnhancedText _ => LDebug
  | InvalidEnhancementIndex _ => LWarning
  | ErrorEnhancing _ | ErrorProcessing _ | ErrorFeedback _ => LError
  end.

(** The rules after [load_enhancement_rules], and what it logs. *)
Definition load_enhancement_rules (file : CustomRules)
  : gmap string EnhancementRule * list LogRecord :=
  match file with
  | Loaded custom_rules => (dict_update default_rules custom_rules, [])
  | FileNotFound | JSONDecodeError => (default_rules, [NoCustomRules])
  end.

(* ================================================================== *)
(** * Providers and the outside world                                  *)
(* ================================================================== *)

(** Values of type [Any] in [options]: JSON scalars.  Numbers with a
    fraction and nested containers are left out; no modelled code looks
    inside them. *)
Inductive Any :=
| ANone
| ABool (b : bool)
| AInt (z : Z)
| AStr (s : string).

(** Python truthiness, as used by [or] and [not]. *)
Definition truthy (v : Any) : bool :=
  match v with
  | ANone => false
  | ABool b => b
  | AInt z => negb (z =? 0)
  | AStr s => negb (String.eqb s "")
  end.

Inductive ConnectorClass := OpenAIConnector | AnthropicConnector | HuggingFaceConnector.

(** A connector object: its class and the two fields its constructor
    sets from its arguments. *)
Record LLMProvider := mkProvider {
  connector : ConnectorClass;
  api_key : Any;
  model : option string
}.

(** One invocation of [generate_response]. *)
Record Call := mkCall {
  call_provider : LLMProvider;
  call_prompt : string;
  call_options : gmap string Any
}.

(** A reading of [time.time()], carried opaquely. *)
Definition Timestamp := Z.

(** What the program observes of its surroundings.  [generate_response]
    is the provider adapter: given the calls made before, it answers a
    call with text or raises an instance of Python's class [Exception];
    quantifying over it covers every such adapter.  What is raised
    outside that class (a cancellation of the task, an interrupt) is
    not caught by [except Exception] and is not modelled.
    [time_time n] is the (n+1)-th reading of the clock. *)
Record Env := mkEnv {
  getenv : string -> option string;
  rules_file : CustomRules;
  generate_response : list Call -> Call -> Result string;
  time_time : nat -> Timestamp
}.

(** The effects that accumulate: adapter calls in order, log records in
    order, and the number of clock readings. *)
Record World := mkWorld {
  calls : list Call;
  logged : list LogRecord;
  ticks : nat
}.

Definition log (rs : list LogRecord) (w : World) : World :=
  mkWorld (calls w) (logged w ++ rs) (ticks w).

(** [await provider.generate_response(prompt, options)]. *)
Definition call_adapter (env : Env) (provider : LLMProvider) (prompt : string)
    (options : gmap string Any) (w : World) : Result string * World :=
  let c := mkCall provider prompt options in
  (generate_response env (calls w) c, mkWorld (calls w ++ [c]) (logged w) (ticks w)).

Definition read_clock (env : Env) (w : World) : Timestamp * World :=
  (time_time env (ticks w), mkWorld (calls w) (logged w) (S (ticks w))).

(* ================================================================== *)
(** * The engine ([PromptEnhancement], [PromptEngineer])               *)
(* ================================================================== *)

Record PromptEnhancement := mkEnhancement {
  original_prompt : string;
  enhanced_prompt : string;
  timestamp : Timestamp;
  effectiveness_rating : option Z
}.

Record PromptEngineer := mkEngineer {
  llm_provider : LLMProvider;
  enhancement_history : list PromptEnhancement;
  enhancement_rules : gmap string EnhancementRule
}.

(** [PromptEnhancement.__init__]. *)
Definition new_enhancement (env : Env) (original enhanced : string) (w : World)
  : PromptEnhancement * World :=
  let '(now, w') := read_clock env w in
  (mkEnhancement original enhanced now None, w').

(** [PromptEngineer.__init__]. *)
Definition new_engineer (env : Env) (provider : LLMProvider) (w : World)
  : PromptEngineer * World :=
  let '(rules, records) := load_enhancement_rules (rules_file env) in
  (mkEngineer provider [] rules, log records w).

Definition set_history (self : PromptEngineer) (h : list PromptEnhancement)
  : PromptEngineer :=
  mkEngineer (llm_provider self) h (enhancement_rules self).

(** [PromptEngineer.enhance_prompt].  The subscript
    [self.enhancement_rules[prompt_type]] and the call of [format] stand
    before the [try]; only the adapter call and the recording are inside
    it, and its handler returns the prompt it was given.  The handler is
    [except Exception]; every [Raise] of the adapter is such an
    instance (see [Env]), so it is caught here. *)
Definition enhance_prompt (env : Env) (self : PromptEngineer) (prompt : string)
    (w : World) : Result string * PromptEngineer * World :=
  let prompt_type := detect_prompt_type prompt in
  match enhancement_rules self !! prompt_type with
  | None => (Raise (mkException "KeyError" (sq +:+ prompt_type +:+ sq)), self, w)
  | Some enhancement_rule =>
      match format (template enhancement_rule) prompt with
      | Raise e => (Raise e, self, w)
      | Ok meta_prompt =>
          let options : gmap string Any :=
            {[ "system_prompt" := AStr (system_prompt enhancement_rule) ]} in
          match call_adapter env (llm_provider self) meta_prompt options w with
          | (Ok enhanced, w1) =>
              let '(enhancement, w2) := new_enhancement env prompt enhanced w1 in
              (Ok enhanced,
               set_history self (enhancement_history self ++ [enhancement]),
               log [EnhancedPromptOfType prompt_type; OriginalText prompt;
                    EnhancedText enhanced] w2)
          | (Raise e, w1) =>
              (Ok prompt, self, log [ErrorEnhancing e] w1)
          end
      end
  end.

Definition set_rating (rating : Z) (r : PromptEnhancement) : PromptEnhancement :=
  mkEnhancement (original_prompt r) (enhanced_prompt r) (timestamp r) (Some rating).

(** [PromptEngineer.record_effectiveness]. *)
Definition record_effectiveness (self : PromptEngineer) (index rating : Z) (w : World)
  : PromptEngineer * World :=
  if ((0 <=? index) && (index <? Z.of_nat (length (enhancement_history self))))%bool
  then (set_history self
          (alter (set_rating rating) (Z.to_nat index) (enhancement_history self)),
        log [RecordedRating rating index] w)
  else (self, log [InvalidEnhancementIndex index] w).

(* ================================================================== *)
(** * The middleware ([prompt-middleware.py])                          *)
(* ================================================================== *)

(** [models.py]. *)
Record PromptRequest := mkPromptRequest {
  prompt : string;
  provider : string;
  request_model : option string;
  options : gmap string Any;
  bypass_enhancement : bool
}.

Record FeedbackRequest := mkFeedbackRequest {
  feedback_index : Z;          (* the field [enhancement_index] *)
  rating : Z
}.

Record PromptResponse := mkPromptResponse {
  response : string;
  enhancement_index : option Z
}.

(** What an endpoint gives its client: the returned value, or the
    [HTTPException] it raises. *)
Inductive Endpoint (A : Type) : Type :=
| Returned (a : A)
| HTTPException (status_code : Z) (detail : string).
Arguments Returned {A} a.
Arguments HTTPException {A} status_code detail.

Definition HTTP_500_INTERNAL_SERVER_ERROR : Z := 500.

(** The module-level state.  [llm_providers] is keyed by [provider_key].
    [prompt_engineers] is keyed in the source by [id(provider)]; every
    provider object is created once for its key and stays in
    [llm_providers], so the key identifies the object and stands for its
    [id] here.  The dictionary is kept as an association list in
    insertion order, which [get_enhancement_history] observes. *)
Record Server := mkServer {
  llm_providers : gmap string LLMProvider;
  prompt_engineers : list (string * PromptEngineer);
  world : World
}.

Definition set_world (st : Server) (w : World) : Server :=
  mkServer (llm_providers st) (prompt_engineers st) w.

(** Computations of the middleware: they read and change the [Server]
    and end with a value or a raised exception. *)
Definition M (A : Type) : Type := Server -> Result A * Server.

Definition ret {A} (a : A) : M A := fun st => (Ok a, st).

Definition raise {A} (e : Exception) : M A := fun st => (Raise e, st).

Definition bind {A B} (m : M A) (k : A -> M B) : M B :=
  fun st =>
    match m st with
    | (Ok a, st') => k a st'
    | (Raise e, st') => (Raise e, st')
    end.

(** The monad structure, so that stdpp's [x ← m; k] reads as sequencing
    of statements. *)
#[global] Instance M_ret : MRet M := @ret.
#[global] Instance M_bind : MBind M := fun A B k m => bind m k.

(** [api_key or os.getenv(name)]. *)
Definition api_key_or_env (env : Env) (api_key : Any) (name : string) : Any :=
  if truthy api_key then api_key
  else match getenv env name with
       | Some v => AStr v
       | None => ANone
       end.

(** The three constructors of [llm-providers.py]: each takes the key from
    its argument or from its environment variable and raises
    [ValueError] when there is none. *)
Definition new_connector (env : Env) (cls : ConnectorClass) (api_key : Any)
    (model : option string) : Result LLMProvider :=
  let '(variable, message) :=
    match cls with
    | OpenAIConnector => ("OPENAI_API_KEY", "OpenAI API key is required")
    | AnthropicConnector => ("ANTHROPIC_API_KEY", "Anthropic API key is required")
    | HuggingFaceConnector => ("HUGGINGFACE_API_KEY", "Hugging Face API key is required")
    end in
  let key := api_key_or_env env api_key variable in
  if truthy key then Ok (mkProvider cls key model)
  else Raise (mkException "ValueError" message).

(** [f"{provider_name}_{model or 'default'}"]. *)
Definition provider_key_of (provider_name : string) (model : option string) : string :=
  provider_name +:+ "_" +:+
  match model with
  | Some m => if String.eqb m "" then "default" else m
  | None => "default"
  end.

Definition connector_class (provider_name : string) : option ConnectorClass :=
  let name := lower provider_name in
  if String.eqb name "openai" then Some OpenAIConnector
  else if String.eqb name "anthropic" then Some AnthropicConnector
  else if String.eqb name "huggingface" then Some HuggingFaceConnector
  else None.

(** [get_or_create_provider]; the result is the provider object together
    with the key that identifies it. *)
Definition get_or_create_provider (env : Env) (provider_name : string)
    (api_key : Any) (model : option string) : M (string * LLMProvider) :=
  fun st =>
    let provider_key := provider_key_of provider_name model in
    match llm_providers st !! provider_key with
    | Some p => (Ok (provider_key, p), st)
    | None =>
        match connector_class provider_name with
        | None =>
            (Raise (mkException "ValueError" ("Unsupported provider: " +:+ provider_name)),
             st)
        | Some cls =>
            match new_connector env cls api_key model with
            | Raise e => (Raise e, st)
            | Ok p =>
                (Ok (provider_key, p),
                 mkServer (<[provider_key := p]> (llm_providers st))
                          (prompt_engineers st) (world st))
            end
        end
    end.

(** Dictionary access on the association list. *)
Fixpoint assoc_get {V} (l : list (string * V)) (k : string) : option V :=
  match l with
  | [] => None
  | (k', v) :: l' => if String.eqb k' k then Some v else assoc_get l' k
  end.

Fixpoint assoc_set {V} (l : list (string * V)) (k : string) (v : V)
  : list (string * V) :=
  match l with
  | [] => [(k, v)]
  | (k', v') :: l' =>
      if String.eqb k' k then (k', v) :: l' else (k', v') :: assoc_set l' k v
  end.

(** [get_or_create_prompt_engineer]; [provider_id] is the identity of
    the provider object.  The engineer is a shared object: the caller
    gets the handle under which the registry holds it. *)
Definition get_or_create_prompt_engineer (env : Env) (provider_id : string)
    (provider : LLMProvider) : M string :=
  fun st =>
    match assoc_get (prompt_engineers st) provider_id with
    | Some _ => (Ok provider_id, st)
    | None =>
        let '(engineer, w) := new_engineer env provider (world st) in
        (Ok provider_id,
         mkServer (llm_providers st)
                  (prompt_engineers st ++ [(provider_id, engineer)]) w)
    end.

(** A method call on the engineer held under [handle]. *)
Definition with_engineer {A} (handle : string)
    (method : PromptEngineer -> World -> Result A * PromptEngineer * World) : M A :=
  fun st =>
    match assoc_get (prompt_engineers st) handle with
    | None => (Raise (mkException "KeyError" handle), st)
    | Some engineer =>
        let '(r, engineer', w) := method engineer (world st) in
        (r, mkServer (llm_providers st)
                     (assoc_set (prompt_engineers st) handle engineer') w)
    end.

Definition history_length (handle : string) : M Z :=
  fun st =>
    match assoc_get (prompt_engineers st) handle with
    | None => (Raise (mkException "KeyError" handle), st)
    | Some engineer => (Ok (Z.of_nat (length (enhancement_history engineer))), st)
    end.

Definition generate (env : Env) (p : LLMProvider) (text : string)
    (opts : gmap string Any) : M string :=
  fun st =>
    let '(r, w) := call_adapter env p text opts (world st) in
    (r, set_world st w).

(** [process_prompt], first part of the [try]: get or create the
    provider, then its prompt engineer. *)
Definition process_setup (env : Env) (request : PromptRequest)
  : M (string * LLMProvider) :=
  '(provider_id, p) ←
     get_or_create_provider env (provider request)
       (default ANone (options request !! "api_key")) (request_model request);
  prompt_engineer ← get_or_create_prompt_engineer env provider_id p;
  mret (prompt_engineer, p).

(** Second part: enhance the prompt if not bypassed.  The index is the
    length of the history after [enhance_prompt] has returned, minus
    one. *)
Definition process_enhance (env : Env) (request : PromptRequest)
    (prompt_engineer : string) : M (string * option Z) :=
  if bypass_enhancement request
  then mret (prompt request, None)
  else
    final_prompt ←
      with_engineer prompt_engineer
        (fun self => enhance_prompt env self (prompt request));
    n ← history_length prompt_engineer;
    mret (final_prompt, Some (n - 1)).

(** The whole body of the [try]: the two parts above, then the call that
    generates the answer. *)
Definition process_prompt_body (env : Env) (request : PromptRequest) : M PromptResponse :=
  '(prompt_engineer, p) ← process_setup env request;
  '(final_prompt, index) ← process_enhance env request prompt_engineer;
  llm_response ← generate env p final_prompt (options request);
  mret (mkPromptResponse llm_response index).

(** [process_prompt]: the handler turns every exception into one
    [HTTPException] with status 500 and [str(e)] as its detail. *)
Definition process_prompt (env : Env) (request : PromptRequest) (st : Server)
  : Endpoint PromptResponse * Server :=
  match process_prompt_body env request st with
  | (Ok r, st') => (Returned r, st')
  | (Raise e, st') =>
      (HTTPException HTTP_500_INTERNAL_SERVER_ERROR (exc_str e),
       set_world st' (log [ErrorProcessing e] (world st')))
  end.

(** The loop of [provide_feedback] over [prompt_engineers.values()]. *)
Fixpoint record_all (engineers : list (string * PromptEngineer)) (index rating : Z)
    (w : World) : list (string * PromptEngineer) * World :=
  match engineers with
  | [] => ([], w)
  | (k, engineer) :: rest =>
      let '(engineer', w1) := record_effectiveness engineer index rating w in
      let '(rest', w2) := record_all rest index rating w1 in
      ((k, engineer') :: rest', w2)
  end.

(** [provide_feedback]: nothing in its [try] raises, so it always
    returns [{"status": "success"}]. *)
Definition provide_feedback (request : FeedbackRequest) (st : Server)
  : Endpoint string * Server :=
  let '(engineers, w) :=
    record_all (prompt_engineers st) (feedback_index request) (rating request) (world st) in
  (Returned "success", mkServer (llm_providers st) engineers w).

(** [get_enhancement_history]: the history of the first engineer. *)
Definition get_enhancement_history (st : Server) : list PromptEnhancement :=
  match prompt_engineers st with
  | [] => []
  | (_, first_engineer) :: _ => enhancement_history first_engineer
  end.

Definition initial_world : World := mkWorld [] [] 0.

Definition initial_server : Server := mkServer ∅ [] initial_world.

(* ================================================================== *)
(** * Vocabulary of the statements                                     *)
(* ================================================================== *)

(** [term] occurs in [s]: some text before it, some text after it. *)
Definition occurs (term s : string) : Prop :=
  exists before after, s = before +:+ term +:+ after.

(** Some keyword of the list occurs in [s]. *)
Definition some_occurs (terms : list string) (s : string) : Prop :=
  exists term, In term terms /\ occurs term s.

(** The call that [enhance_prompt] places with the adapter, when the
    rule lookup and [format] let it get that far. *)
Definition enhancement_call (self : PromptEngineer) (prompt : string) : Result Call :=
  match enhancement_rules self !! detect_prompt_type prompt with
  | None =>
      Raise (mkException "KeyError" (sq +:+ detect_prompt_type prompt +:+ sq))
  | Some enhancement_rule =>
      match format (template enhancement_rule) prompt with
      | Raise e => Raise e
      | Ok meta_prompt =>
          Ok (mkCall (llm_provider self) meta_prompt
                {[ "system_prompt" := AStr (system_prompt enhancement_rule) ]})
      end
  end.

(** A template that [format] accepts.  Whether [format] raises depends
    on the template only (lemma [format_ok_any_prompt]), so the empty
    prompt decides. *)
Definition template_ok (t : string) : bool := is_ok (format t "").

(** Every rule of the custom file, if there is one, has such a
    template. *)
Definition custom_templates_ok (file : CustomRules) : Prop :=
  match file with
  | Loaded custom_rules =>
      forall category rule,
        custom_rules !! category = Some rule -> template_ok (template rule) = true
  | FileNotFound | JSONDecodeError => True
  end.

(** The text of a template before its first opening brace, and after
    its first closing brace. *)
Fixpoint before_brace (s : string) : string :=
  match s with
  | EmptyString => EmptyString
  | String c s' => if Ascii.eqb c "{" then EmptyString else String c (before_brace s')
  end%char.

Fixpoint after_brace (s : string) : string :=
  match s with
  | EmptyString => EmptyString
  | String c s' => if Ascii.eqb c "}" then s' else after_brace s'
  end%char.

(** Text without braces. *)
Fixpoint brace_free (s : string) : bool :=
  match s with
  | EmptyString => true
  | String c s' =>
      negb (Ascii.eqb c "{") && negb (Ascii.eqb c "}") && brace_free s'
  end%char.

(** The history held under [handle], empty when there is no such
    engineer. *)
Definition history_of (st : Server) (handle : string) : list PromptEnhancement :=
  match assoc_get (prompt_engineers st) handle with
  | Some engineer => enhancement_history engineer
  | None => []
  end.

(* ================================================================== *)
(** * Sample environments, engineers and requests                      *)
(* ================================================================== *)

(** No custom rule file, and every adapter call fails. *)
Definition failing_env : Env :=
  mkEnv (fun _ => None) FileNotFound
        (fun _ _ => Raise (mkException "ConnectionError" "connection refused"))
        (fun n => Z.of_nat n).

(** The adapter answers the coding meta-prompt and nothing else. *)
Definition fixing_env : Env :=
  mkEnv (fun _ => None) FileNotFound
        (fun _ c =>
           if contains "Consider this coding request" (call_prompt c)
           then Ok "Fixed prompt text"
           else Raise (mkException "ConnectionError" "connection refused"))
        (fun n => Z.of_nat n).

(** The adapter answers every call by quoting its prompt. *)
Definition echo_env : Env :=
  mkEnv (fun _ => None) FileNotFound
        (fun _ c => Ok ("answer to: " +:+ call_prompt c))
        (fun n => Z.of_nat n).

(** The adapter answers its first call and fails from then on. *)
Definition one_answer_env : Env :=
  mkEnv (fun _ => None) FileNotFound
        (fun earlier _ =>
           match earlier with
           | [] => Ok "Fixed prompt text"
           | _ => Raise (mkException "HTTPError" "503 Server Error")
           end)
        (fun n => Z.of_nat n).

(** The adapter fails its first call and answers from then on. *)
Definition late_answer_env : Env :=
  mkEnv (fun _ => None) FileNotFound
        (fun earlier _ =>
           match earlier with
           | [] => Raise (mkException "HTTPError" "503 Server Error")
           | _ => Ok "late answer"
           end)
        (fun n => Z.of_nat n).

(** The adapter numbers its answers and fails the third call only. *)
Definition third_call_fails_env : Env :=
  mkEnv (fun _ => None) FileNotFound
        (fun earlier _ =>
           match earlier with
           | [_; _] => Raise (mkException "HTTPError" "503 Server Error")
           | [] => Ok "answer 0"
           | [_] => Ok "answer 1"
           | _ => Ok "answer 3"
           end)
        (fun n => Z.of_nat n).

(** A custom file whose rule for ["default"] has a template with a
    field that is not [prompt]. *)
Definition unknown_field_rules : CustomRules :=
  Loaded {[ "default" := mkRule "Be brief." "Improve: {text}" ]}.

Definition test_provider : LLMProvider :=
  mkProvider OpenAIConnector (AStr "sk-test") None.

Definition fresh_engineer (env : Env) : PromptEngineer :=
  fst (new_engineer env test_provider initial_world).

(** An engineer whose history is the one record of the scenario
    ["debug this function"]. *)
Definition scenario_engineer : PromptEngineer :=
  mkEngineer test_provider
    [mkEnhancement "debug this function" "Fixed prompt text" 0 None]
    default_rules.

(** A history of three records, the middle one rated. *)
Definition three_records : PromptEngineer :=
  mkEngineer test_provider
    [mkEnhancement "a" "A" 10 None;
     mkEnhancement "b" "B" 20 (Some 2);
     mkEnhancement "c" "C" 30 None]
    default_rules.

Definition hello_request (bypass : bool) : PromptRequest :=
  mkPromptRequest "hello" "openai" None {[ "api_key" := AStr "sk-test" ]} bypass.

Definition debug_request : PromptRequest :=
  mkPromptRequest "debug this function" "openai" None
    {[ "api_key" := AStr "sk-test" ]} false.

(** The server after one request whose two adapter calls succeeded. *)
Definition after_debug_request : Server :=
  snd (process_prompt third_call_fails_env debug_request initial_server).

(* ================================================================== *)
(** * Further vocabulary: priorities, sequences of requests, the client *)
(* ================================================================== *)

(** The order in which [detect_prompt_type] tries the categories, as a
    number: the earlier a category is tried, the higher. *)
Definition category_priority (category : string) : nat :=
  if String.eqb category "coding" then 3
  else if String.eqb category "creative" then 2
  else if String.eqb category "analytical" then 1
  else 0.

(** What the server is asked to do, one request after the other. *)
Inductive Input :=
| Process (request : PromptRequest)
| Feedback (request : FeedbackRequest).

Definition step (env : Env) (st : Server) (input : Input) : Server :=
  match input with
  | Process request => snd (process_prompt env request st)
  | Feedback request => snd (provide_feedback request st)
  end.

Definition run (env : Env) (inputs : list Input) (st : Server) : Server :=
  fold_left (step env) inputs st.

(** A field name that [str.format] looks up among the keyword
    arguments and does not find: plain characters only (so no
    conversion, specification or access and nothing that [repr] would
    escape), no brace, not read as a position (the empty name is one),
    and not [prompt]. *)
Definition unknown_field_name (name : string) : bool :=
  plain_name name && brace_free name &&
  match get_integer 0 name with
  | NotAnIndex => negb (String.eqb name "prompt")
  | TooManyDigits | Index _ => false
  end.

(** The log record that [record_effectiveness] writes for an engineer:
    the rating and the index when the index is in its history, the
    invalid index otherwise. *)
Definition feedback_record (self : PromptEngineer) (index rating : Z) : LogRecord :=
  if ((0 <=? index) && (index <? Z.of_nat (length (enhancement_history self))))%bool
  then RecordedRating rating index
  else InvalidEnhancementIndex index.

(** [model or 'default'], the second half of a provider key. *)
Definition model_or_default (model : option string) : string :=
  match model with
  | Some m => if String.eqb m "" then "default" else m
  | None => "default"
  end.

(** The environment variable that each connector falls back to, and the
    message of the [ValueError] it raises without a key. *)
Definition api_key_variable (cls : ConnectorClass) : string :=
  match cls with
  | OpenAIConnector => "OPENAI_API_KEY"
  | AnthropicConnector => "ANTHROPIC_API_KEY"
  | HuggingFaceConnector => "HUGGINGFACE_API_KEY"
  end.

Definition api_key_required (cls : ConnectorClass) : string :=
  match cls with
  | OpenAIConnector => "OpenAI API key is required"
  | AnthropicConnector => "Anthropic API key is required"
  | HuggingFaceConnector => "Hugging Face API key is required"
  end.

(** [c in s] for one character. *)
Fixpoint has_char (c : ascii) (s : string) : bool :=
  match s with
  | EmptyString => false
  | String x s' => Ascii.eqb x c || has_char c s'
  end.

(** A request to another provider than the samples above. *)
Definition anthropic_request : PromptRequest :=
  mkPromptRequest "hello" "anthropic" None {[ "api_key" := AStr "sk-ant" ]} false.

(** The adapter answers every call with the same text. *)
Definition constant_env : Env :=
  mkEnv (fun _ => None) FileNotFound (fun _ _ => Ok "ok") (fun n => Z.of_nat n).

(** The server after the request ["debug this function"] to OpenAI,
    with that adapter. *)
Definition after_openai_request : Server :=
  snd (process_prompt constant_env debug_request initial_server).

(** The two calls of the request ["hello"] to OpenAI with the built-in
    rules: the enhancement call and the final call when the
    enhancement has failed. *)
Definition hello_meta_call : Call :=
  mkCall test_provider
    (before_brace default_template +:+ "hello" +:+ after_brace default_template)
    {[ "system_prompt" := AStr default_system_prompt ]}.

Definition hello_final_call : Call :=
  mkCall test_provider "hello" {[ "api_key" := AStr "sk-test" ]}.

(** The registries agree: the handles are distinct, every engineer is
    held under the key of the provider it was made for, and its rules
    are those loaded from the rule file. *)
Definition engineers_bound (env : Env) (st : Server) : Prop :=
  NoDup (map fst (prompt_engineers st)) /\
  Forall (fun entry =>
            llm_providers st !! fst entry = Some (llm_provider (snd entry)) /\
            enhancement_rules (snd entry) = fst (load_enhancement_rules (rules_file env)))
         (prompt_engineers st).

(** The clock never goes back. *)
Definition clock_monotone (env : Env) : Prop :=
  forall n m : nat, (n <= m)%nat -> time_time env n <= time_time env m.

(** The timestamps of a history, oldest record first, never decrease. *)
Fixpoint chronological (history : list PromptEnhancement) : Prop :=
  match history with
  | [] => True
  | r :: rest =>
      Forall (fun later => timestamp r <= timestamp later) rest /\ chronological rest
  end.

(** The two facts about the timestamps of a history that every request
    keeps, for a clock that has been read [readings] times: every
    record carries one of those readings, and the history is
    chronological. *)
Definition timeline (env : Env) (readings : nat) (history : list PromptEnhancement)
  : Prop :=
  Forall (fun r => exists n : nat, (n < readings)%nat /\ timestamp r = time_time env n)
         history /\
  chronological history.

(* ================================================================== *)
(** * The requests that the connectors send ([llm-providers.py])       *)
(* ================================================================== *)

(** [self.model] as a JSON value. *)
Definition model_value (model : option string) : Any :=
  match model with
  | Some m => AStr m
  | None => ANone
  end.

(** [options.get(key, fallback)]. *)
Definition options_get (options : gmap string Any) (key : string) (fallback : Any) : Any :=
  default fallback (options !! key).

(** The JSON body that [generate_response] posts, one shape for each
    connector.  The temperature is [options.get("temperature", 0.7)]:
    it is kept as the looked-up option, [None] standing for the
    literal 0.7, which is no value of [Any]. *)
Inductive RequestBody :=
| OpenAIBody (body_model system_content : Any) (user_content : string)
             (temperature : option Any) (max_tokens : Any)
| AnthropicBody (body_model : Any) (user_content : string) (max_tokens : Any)
                (temperature : option Any) (system : Any)
| HuggingFaceBody (inputs : string) (max_new_tokens : Any)
                  (temperature : option Any).

Definition request_body (self : LLMProvider) (prompt : string)
    (options : gmap string Any) : RequestBody :=
  match connector self with
  | OpenAIConnector =>
      OpenAIBody (options_get options "model" (model_value (model self)))
                 (options_get options "system_prompt" (AStr "You are a helpful assistant."))
                 prompt
                 (options !! "temperature")
                 (options_get options "max_tokens" (AInt 1000))
  | AnthropicConnector =>
      AnthropicBody (options_get options "model" (model_value (model self)))
                    prompt
                    (options_get options "max_tokens" (AInt 1000))
                    (options !! "temperature")
                    (options_get options "system_prompt"
                       (AStr "You are Claude, a helpful AI assistant."))
  | HuggingFaceConnector =>
      HuggingFaceBody prompt (options_get options "max_tokens" (AInt 1000))
                      (options !! "temperature")
  end.

(** [self.base_url]; the Hugging Face one is an f-string over the
    constructor's [model], and [None] prints as ["None"]. *)
Definition base_url (self : LLMProvider) : string :=
  match connector self with
  | OpenAIConnector => "https://api.openai.com/v1/chat/completions"
  | AnthropicConnector => "https://api.anthropic.com/v1/messages"
  | HuggingFaceConnector =>
      "https://api-inference.huggingface.co/models/" +:+
      match model self with
      | Some m => m
      | None => "None"
      end
  end.

(* ================================================================== *)
(** * The client ([client-py.py])                                      *)
(* ================================================================== *)

(** The API key that [PromptEngineerClient.process_prompt] looks up in
    its own environment for a provider, if the provider is one it
    knows; [os.getenv] gives [None] for an unset variable. *)
Definition client_api_key (client_getenv : string -> option string)
    (provider_name : string) : option Any :=
  let from_env name :=
    match client_getenv name with
    | Some v => AStr v
    | None => ANone
    end in
  let name := lower provider_name in
  if String.eqb name "openai" then Some (from_env "OPENAI_API_KEY")
  else if String.eqb name "anthropic" then Some (from_env "ANTHROPIC_API_KEY")
  else if String.eqb name "huggingface" then Some (from_env "HUGGINGFACE_API_KEY")
  else None.

(** The payload that the client posts to [/process]; the server reads
    it as a [PromptRequest].  [options] is [None] when the caller gives
    none. *)
Definition client_process_payload (client_getenv : string -> option string)
    (prompt provider_name : string) (model : option string)
    (options : option (gmap string Any)) (bypass : bool) : PromptRequest :=
  let options := default ∅ options in
  let options :=
    match options !! "api_key" with
    | Some _ => options
    | None =>
        match client_api_key client_getenv provider_name with
        | Some key => <["api_key" := key]> options
        | None => options
        end
    end in
  mkPromptRequest prompt provider_name model options bypass.

(* ================================================================== *)
(** * Strings: substring search and lower-casing                       *)
(* ================================================================== *)

Lemma startswith_spec (term s : string) :
  startswith term s = true <-> exists after, s = term +:+ after.
Proof.
  revert s; induction term as [|a term IH]; intros s; simpl.
  - split; [intros _; exists s; reflexivity | reflexivity].
  - destruct s as [|b s].
    + split; [discriminate | intros [after H]; discriminate].
    + destruct (Ascii.eqb_spec a b) as [->|Hab].
      * rewrite IH. split; intros [after H]; exists after.
        -- simpl. now rewrite H.
        -- simpl in H. now injection H.
      * split; [discriminate | intros [after H]; simpl in H; injection H as Hb _; now subst].
Qed.

Lemma contains_spec (term s : string) :
  contains term s = true <-> occurs term s.
Proof.
  unfold occurs. induction s as [|c s IH].
  - cbn [contains]. rewrite orb_false_r, startswith_spec. split.
    + intros [after H]. exists EmptyString, after. exact H.
    + intros [[|b before] [after H]].
      * exists after. exact H.
      * discriminate.
  - cbn [contains]. rewrite orb_true_iff, startswith_spec, IH. split.
    + intros [[after H] | [before [after H]]].
      * exists EmptyString, after. exact H.
      * exists (String c before), after. simpl. now rewrite H.
    + intros [[|b before] [after H]].
      * left. exists after. exact H.
      * right. exists before, after. simpl in H. now injection H.
Qed.

Lemma any_in_spec (terms : list string) (s : string) :
  any_in terms s = true <-> some_occurs terms s.
Proof.
  unfold any_in, some_occurs. rewrite existsb_exists.
  split; intros [term [Hin H]]; exists term; split; auto; now apply contains_spec.
Qed.

Lemma any_in_false (terms : list string) (s : string) :
  any_in terms s = false <-> ~ some_occurs terms s.
Proof.
  rewrite <- any_in_spec. destruct (any_in terms s); split; congruence.
Qed.

Lemma lower_app (a b : string) : lower (a +:+ b) = lower a +:+ lower b.
Proof. induction a as [|c a IH]; simpl; [reflexivity | now rewrite IH]. Qed.

Lemma occurs_lower (term s : string) :
  occurs term s -> occurs (lower term) (lower s).
Proof.
  intros [before [after ->]]. exists (lower before), (lower after).
  now rewrite !lower_app.
Qed.

(** The keywords are written in lower case already. *)
Lemma terms_lower :
  Forall (fun term => lower term = term)
         (coding_terms ++ creative_terms ++ analytical_terms).
Proof. repeat constructor. Qed.

Lemma coding_term_occurs_lower (term prompt : string) :
  In term coding_terms -> occurs term prompt ->
  some_occurs coding_terms (lower prompt).
Proof.
  intros Hin Hocc. exists term. split; [exact Hin|].
  assert (Hfix : lower term = term).
  { pose proof terms_lower as H. rewrite Forall_forall in H. apply H.
    apply list_elem_of_In, in_or_app. now left. }
  rewrite <- Hfix. now apply occurs_lower.
Qed.

(* ================================================================== *)
(** * Category detection                                               *)
(* ================================================================== *)

(** C4.  Detection lower-cases the prompt and looks for the keywords of
    each category as substrings, coding first, then creative, then
    analytical: the answer is the first category one of whose keywords
    occurs, and ["default"] when none does.  In particular a prompt in
    which a coding keyword and a creative keyword both occur is
    detected as ["coding"]. *)
Theorem detect_prompt_type_priority (prompt : string) :
  (detect_prompt_type prompt = "coding" <->
     some_occurs coding_terms (lower prompt)) /\
  (detect_prompt_type prompt = "creative" <->
     ~ some_occurs coding_terms (lower prompt) /\
     some_occurs creative_terms (lower prompt)) /\
  (detect_prompt_type prompt = "analytical" <->
     ~ some_occurs coding_terms (lower prompt) /\
     ~ some_occurs creative_terms (lower prompt) /\
     some_occurs analytical_terms (lower prompt)) /\
  (detect_prompt_type prompt = "default" <->
     ~ some_occurs coding_terms (lower prompt) /\
     ~ some_occurs creative_terms (lower prompt) /\
     ~ some_occurs analytical_terms (lower prompt)) /\
  (forall coding_term creative_term,
     In coding_term coding_terms -> In creative_term creative_terms ->
     occurs coding_term prompt -> occurs creative_term prompt ->
     detect_prompt_type prompt = "coding").
Proof.
  assert (Hcases :
    any_in coding_terms (lower prompt) = true /\
      detect_prompt_type prompt = "coding" \/
    any_in coding_terms (lower prompt) = false /\
      any_in creative_terms (lower prompt) = true /\
      detect_prompt_type prompt = "creative" \/
    any_in coding_terms (lower prompt) = false /\
      any_in creative_terms (lower prompt) = false /\
      any_in analytical_terms (lower prompt) = true /\
      detect_prompt_type prompt = "analytical" \/
    any_in coding_terms (lower prompt) = false /\
      any_in creative_terms (lower prompt) = false /\
      any_in analytical_terms (lower prompt) = false /\
      detect_prompt_type prompt = "default").
  { unfold detect_prompt_type.
    destruct (any_in coding_terms (lower prompt)); [tauto|].
    destruct (any_in creative_terms (lower prompt)); [tauto|].
    destruct (any_in analytical_terms (lower prompt)); tauto. }
  rewrite <- !any_in_false, <- !any_in_spec.
  assert (Hcoding : detect_prompt_type prompt = "coding" <->
                    any_in coding_terms (lower prompt) = true).
  { destruct Hcases as [[H1 ->] | [(H1 & H2 & ->) | [(H1 & H2 & H3 & ->)
                                                    | (H1 & H2 & H3 & ->)]]];
      rewrite H1; split; intros H; try reflexivity; discriminate H. }
  split; [exact Hcoding|].
  split; [|split; [|split]].
  - destruct Hcases as [[H1 ->] | [(H1 & H2 & ->) | [(H1 & H2 & H3 & ->)
                                                    | (H1 & H2 & H3 & ->)]]];
      rewrite H1, ?H2; split; intros H; try tauto; try discriminate H;
      destruct H as [Ha Hb]; discriminate.
  - destruct Hcases as [[H1 ->] | [(H1 & H2 & ->) | [(H1 & H2 & H3 & ->)
                                                    | (H1 & H2 & H3 & ->)]]];
      rewrite H1, ?H2, ?H3; split; intros H; try tauto; try discriminate H;
      destruct H as (Ha & Hb & Hc); discriminate.
  - destruct Hcases as [[H1 ->] | [(H1 & H2 & ->) | [(H1 & H2 & H3 & ->)
                                                    | (H1 & H2 & H3 & ->)]]];
      rewrite H1, ?H2, ?H3; split; intros H; try tauto; try discriminate H;
      destruct H as (Ha & Hb & Hc); discriminate.
  - intros coding_term creative_term Hin _ Hocc _.
    apply Hcoding, any_in_spec.
    now apply (coding_term_occurs_lower coding_term).
Qed.

(** A prompt with a creative and a coding keyword, in mixed case. *)
Lemma detect_prompt_type_priority_witness :
  detect_prompt_type "Write CODE for a blog" = "coding" /\
  detect_prompt_type "write code" = "coding".
Proof.
  split; [reflexivity|].
  apply (detect_prompt_type_priority "write code") with
    (coding_term := "code") (creative_term := "write").
  - simpl. tauto.
  - simpl. tauto.
  - exists "write ", "". reflexivity.
  - exists "", " code". reflexivity.
Defined.

(* ================================================================== *)
(** * The rule set                                                     *)
(* ================================================================== *)

Lemma default_rules_lookup :
  default_rules !! "coding" = Some (mkRule coding_system_prompt coding_template) /\
  default_rules !! "creative" = Some (mkRule creative_system_prompt creative_template) /\
  default_rules !! "analytical" =
    Some (mkRule analytical_system_prompt analytical_template) /\
  default_rules !! "default" = Some (mkRule default_system_prompt default_template).
Proof. repeat split. Qed.

(** The built-in rules are those of the four categories and no others. *)
Lemma default_rules_keys (category : string) :
  is_Some (default_rules !! category) <->
  category = "coding" \/ category = "creative" \/
  category = "analytical" \/ category = "default".
Proof.
  unfold default_rules. rewrite !lookup_insert_is_Some, lookup_empty, is_Some_alt.
  intuition congruence.
Qed.

Lemma dict_update_lookup_new {V} (d other : gmap string V) (k : string) (v : V) :
  other !! k = Some v -> dict_update d other !! k = Some v.
Proof. intros H. unfold dict_update. now apply lookup_union_Some_l. Qed.

Lemma dict_update_lookup_old {V} (d other : gmap string V) (k : string) :
  other !! k = None -> dict_update d other !! k = d !! k.
Proof. intros H. unfold dict_update. now apply lookup_union_r. Qed.

(** Updating never removes a key. *)
Lemma dict_update_is_Some {V} (d other : gmap string V) (k : string) :
  is_Some (d !! k) -> is_Some (dict_update d other !! k).
Proof.
  intros H. destruct (other !! k) as [v|] eqn:Hk.
  - rewrite (dict_update_lookup_new _ _ _ _ Hk). eauto.
  - now rewrite (dict_update_lookup_old _ _ _ Hk).
Qed.

(** C8.  With a custom rule file, the rule set is the built-in one with
    every category of the file replaced as a whole by the file's rule:
    a category of the file looks up to the file's rule (so ["coding"]
    does, when the file has it), and a category that the file does not
    mention looks up as in the four built-in rules. *)
Theorem load_enhancement_rules_overlay (custom_rules : gmap string EnhancementRule) :
  let rules := fst (load_enhancement_rules (Loaded custom_rules)) in
  (forall category rule,
     custom_rules !! category = Some rule -> rules !! category = Some rule) /\
  (forall rule,
     custom_rules !! "coding" = Some rule -> rules !! "coding" = Some rule) /\
  (forall category,
     custom_rules !! category = None ->
     rules !! category = default_rules !! category) /\
  (custom_rules !! "creative" = None ->
     rules !! "creative" = Some (mkRule creative_system_prompt creative_template)).
Proof.
  cbn [load_enhancement_rules fst]. repeat split.
  - intros category rule H. now apply dict_update_lookup_new.
  - intros rule H. now apply dict_update_lookup_new.
  - intros category H. now apply dict_update_lookup_old.
  - intros H. rewrite (dict_update_lookup_old _ _ _ H).
    apply default_rules_lookup.
Qed.

(** A file with a rule for ["coding"] only. *)
Lemma load_enhancement_rules_overlay_witness :
  let custom_rules : gmap string EnhancementRule :=
    {[ "coding" := mkRule "Be terse." "Rewrite: {prompt}" ]} in
  let rules := fst (load_enhancement_rules (Loaded custom_rules)) in
  rules !! "coding" = Some (mkRule "Be terse." "Rewrite: {prompt}") /\
  rules !! "creative" = Some (mkRule creative_system_prompt creative_template).
Proof.
  intros custom_rules rules. split.
  - apply (load_enhancement_rules_overlay custom_rules). reflexivity.
  - apply (load_enhancement_rules_overlay custom_rules). reflexivity.
Defined.

(** Without a usable file the built-in rules stay as they are. *)
Lemma load_enhancement_rules_no_file :
  fst (load_enhancement_rules FileNotFound) = default_rules /\
  fst (load_enhancement_rules JSONDecodeError) = default_rules.
Proof. split; reflexivity. Qed.

(** The category that detection answers always has a rule, whatever the
    custom file holds. *)
Lemma detected_rule_exists (file : CustomRules) (prompt : string) :
  is_Some (fst (load_enhancement_rules file) !! detect_prompt_type prompt).
Proof.
  assert (Hbuiltin : is_Some (default_rules !! detect_prompt_type prompt)).
  { apply default_rules_keys. unfold detect_prompt_type.
    destruct (any_in coding_terms _); [tauto|].
    destruct (any_in creative_terms _); [tauto|].
    destruct (any_in analytical_terms _); tauto. }
  destruct file as [| |custom_rules]; cbn [load_enhancement_rules fst]; auto.
  now apply dict_update_is_Some.
Qed.

(** The entry ["default"] is always there. *)
Lemma loaded_rules_default (file : CustomRules) :
  is_Some (fst (load_enhancement_rules file) !! "default").
Proof.
  assert (Hbuiltin : is_Some (default_rules !! "default"))
    by (apply default_rules_keys; tauto).
  destruct file as [| |custom_rules]; cbn [load_enhancement_rules fst]; auto.
  now apply dict_update_is_Some.
Qed.

(* ================================================================== *)
(** * Templates                                                        *)
(* ================================================================== *)

Lemma field_value_ok_any_prompt (name p q : string) :
  is_ok (field_value name p) = is_ok (field_value name q).
Proof.
  unfold field_value.
  destruct (plain_name name); [|reflexivity]. cbn [negb].
  destruct (get_integer 0 name); try reflexivity.
  destruct (String.eqb name "prompt"); reflexivity.
Qed.

Lemma emit_ok (c : ascii) (r r' : Result string) :
  is_ok r = is_ok r' -> is_ok (emit c r) = is_ok (emit c r').
Proof. destruct r, r'; simpl; congruence. Qed.

Lemma emit_field_ok (name p q : string) (r r' : Result string) :
  is_ok r = is_ok r' ->
  is_ok (emit_field name p r) = is_ok (emit_field name q r').
Proof.
  intros H. unfold emit_field.
  pose proof (field_value_ok_any_prompt name p q) as Hv.
  destruct (field_value name p), (field_value name q);
    try discriminate Hv; try reflexivity.
  destruct r, r'; simpl in *; congruence.
Qed.

(** Whether [format] raises is a property of the template alone. *)
Lemma format_from_ok_any_prompt (t : string) :
  forall (state : Scan) (p q : string),
    is_ok (format_from state t p) = is_ok (format_from state t q).
Proof.
  induction t as [|c t IH]; intros state p q.
  - destruct state; reflexivity.
  - destruct state as [| | |name]; cbn [format_from];
      repeat match goal with
             | |- context [Ascii.eqb ?a ?b] => destruct (Ascii.eqb a b)
             end;
      auto using emit_ok, emit_field_ok.
Qed.

Lemma format_ok_any_prompt (t p q : string) :
  is_ok (format t p) = is_ok (format t q).
Proof. apply format_from_ok_any_prompt. Qed.

Lemma template_ok_format (t prompt : string) :
  template_ok t = true -> exists meta_prompt, format t prompt = Ok meta_prompt.
Proof.
  unfold template_ok. rewrite (format_ok_any_prompt t "" prompt).
  destruct (format t prompt) as [m|e]; [eauto | discriminate].
Qed.

(** The four built-in templates are accepted. *)
Lemma default_templates_ok (category : string) (rule : EnhancementRule) :
  default_rules !! category = Some rule -> template_ok (template rule) = true.
Proof.
  intros H.
  assert (Hkey : is_Some (default_rules !! category)) by eauto.
  apply default_rules_keys in Hkey.
  destruct Hkey as [-> | [-> | [-> | ->]]];
    vm_compute in H; injection H as <-; vm_compute; reflexivity.
Qed.

(** With an acceptable custom file, every rule of the rule set has an
    accepted template. *)
Lemma loaded_templates_ok (file : CustomRules) (category : string)
    (rule : EnhancementRule) :
  custom_templates_ok file ->
  fst (load_enhancement_rules file) !! category = Some rule ->
  template_ok (template rule) = true.
Proof.
  destruct file as [| |custom_rules]; cbn [load_enhancement_rules fst];
    intros Hok H; try (now apply (default_templates_ok category)).
  destruct (custom_rules !! category) as [r|] eqn:Hc.
  - rewrite (dict_update_lookup_new _ _ _ _ Hc) in H. injection H as <-.
    now apply (Hok category).
  - rewrite (dict_update_lookup_old _ _ _ Hc) in H.
    now apply (default_templates_ok category).
Qed.

(** Text without braces is copied as it is. *)
Lemma format_from_literal (literal rest prompt : string) :
  brace_free literal = true ->
  format_from Text (literal +:+ rest) prompt =
  match format_from Text rest prompt with
  | Ok out => Ok (literal +:+ out)
  | Raise e => Raise e
  end.
Proof.
  induction literal as [|c literal IH]; intros H.
  - change (EmptyString +:+ rest) with rest.
    destruct (format_from Text rest prompt); reflexivity.
  - simpl in H. apply andb_true_iff in H as [Hc Hrest].
    apply andb_true_iff in Hc as [H1 H2].
    apply negb_true_iff in H1, H2.
    change (String c literal +:+ rest) with (String c (literal +:+ rest)).
    cbn [format_from]. rewrite H1, H2, (IH Hrest).
    now destruct (format_from Text rest prompt).
Qed.

Lemma append_empty (s : string) : s +:+ EmptyString = s.
Proof.
  induction s as [|c s IH]; [reflexivity|].
  change (String c (s +:+ EmptyString) = String c s). now rewrite IH.
Qed.

Lemma format_from_brace_free (s prompt : string) :
  brace_free s = true -> format_from Text s prompt = Ok s.
Proof.
  intros H. rewrite <- (append_empty s) at 1.
  rewrite (format_from_literal s EmptyString prompt H). cbn [format_from].
  now rewrite append_empty.
Qed.

(** A template made of brace-free text around one [{prompt}] formats to
    that text around the prompt, whatever the prompt contains. *)
Lemma format_one_field (before after prompt : string) :
  brace_free before = true -> brace_free after = true ->
  format (before +:+ "{prompt}" +:+ after) prompt = Ok (before +:+ prompt +:+ after).
Proof.
  intros Hb Ha. unfold format. rewrite (format_from_literal before _ _ Hb).
  change ("{prompt}" +:+ after) with
    (String "{" (String "p" (String "r" (String "o" (String "m"
       (String "p" (String "t" (String "}" after)))))))).
  cbn [format_from Ascii.eqb Bool.eqb]. unfold emit_field.
  change (field_value _ prompt) with (Ok prompt).
  now rewrite (format_from_brace_free after prompt Ha).
Qed.

(** Each built-in template is such a template: the text up to its
    brace, the field, and the text after it.  So the meta-prompt is the
    template with the prompt put in once, braces in the prompt
    included. *)
Lemma default_templates_format (category : string) (rule : EnhancementRule) :
  default_rules !! category = Some rule ->
  brace_free (before_brace (template rule)) = true /\
  brace_free (after_brace (template rule)) = true /\
  forall prompt,
    format (template rule) prompt =
    Ok (before_brace (template rule) +:+ prompt +:+ after_brace (template rule)).
Proof.
  intros H.
  assert (Hkey : is_Some (default_rules !! category)) by eauto.
  apply default_rules_keys in Hkey.
  destruct Hkey as [-> | [-> | [-> | ->]]];
    vm_compute in H; injection H as <-;
    (split; [vm_compute; reflexivity|]);
    (split; [vm_compute; reflexivity|]);
    intros prompt;
    match goal with
    | |- format (template ?r) _ = _ =>
        change (template r) with
          (before_brace (template r) +:+ "{prompt}" +:+ after_brace (template r))
          at 1
    end;
    apply format_one_field; vm_compute; reflexivity.
Qed.

(** The lengths of the four templates, as counted in the source text. *)
Lemma default_templates_length :
  String.length coding_template = 571%nat /\
  String.length creative_template = 501%nat /\
  String.length analytical_template = 550%nat /\
  String.length default_template = 550%nat.
Proof. repeat split. Qed.

(* ================================================================== *)
(** * The enhancement pipeline                                         *)
(* ================================================================== *)

(** [enhance_prompt] by cases: it raises what the steps before the
    [try] raise; otherwise it places exactly one call, and either
    records and returns the adapter's text or returns the prompt and
    records nothing. *)
Lemma enhance_prompt_cases (env : Env) (self : PromptEngineer) (prompt : string)
    (w : World) :
  match enhancement_call self prompt with
  | Raise e => enhance_prompt env self prompt w = (Raise e, self, w)
  | Ok c =>
      match generate_response env (calls w) c with
      | Ok text =>
          enhance_prompt env self prompt w =
          (Ok text,
           set_history self
             (enhancement_history self ++
              [mkEnhancement prompt text (time_time env (ticks w)) None]),
           mkWorld (calls w ++ [c])
                   (logged w ++ [EnhancedPromptOfType (detect_prompt_type prompt);
                                 OriginalText prompt; EnhancedText text])
                   (S (ticks w)))
      | Raise e =>
          enhance_prompt env self prompt w =
          (Ok prompt, self,
           mkWorld (calls w ++ [c]) (logged w ++ [ErrorEnhancing e]) (ticks w))
      end
  end.
Proof.
  unfold enhancement_call, enhance_prompt.
  destruct (enhancement_rules self !! detect_prompt_type prompt) as [rule|];
    [|reflexivity].
  destruct (format (template rule) prompt) as [meta_prompt|e]; [|reflexivity].
  unfold call_adapter.
  destruct (generate_response env (calls w) _) as [text|e]; reflexivity.
Qed.

(** When the adapter call fails, the prompt comes back and the engineer
    is exactly as before: no record is added. *)
Lemma enhance_prompt_adapter_failure (env : Env) (self : PromptEngineer)
    (prompt : string) (w : World) (c : Call) (e : Exception) :
  enhancement_call self prompt = Ok c ->
  generate_response env (calls w) c = Raise e ->
  enhance_prompt env self prompt w =
  (Ok prompt, self,
   mkWorld (calls w ++ [c]) (logged w ++ [ErrorEnhancing e]) (ticks w)).
Proof.
  intros Hc Hg. pose proof (enhance_prompt_cases env self prompt w) as H.
  now rewrite Hc, Hg in H.
Qed.

(** C1, at the failing input.  A new engineer, the prompt ["hello"] and
    an adapter that fails: [enhance_prompt] returns ["hello"], and the
    history is still empty afterwards, where the specification has one
    record with both prompts equal to ["hello"]. *)
Theorem enhance_prompt_failure_records_nothing :
  let '(result, self', _) :=
    enhance_prompt failing_env (fresh_engineer failing_env) "hello" initial_world in
  result = Ok "hello" /\
  enhancement_history (fresh_engineer failing_env) = [] /\
  enhancement_history self' = [] /\
  length (enhancement_history self') <>
  S (length (enhancement_history (fresh_engineer failing_env))).
Proof. vm_compute. repeat split; discriminate. Qed.

(** Where [enhance_prompt] is total.  The rule set always has the entry
    ["default"], and the category that detection answers always has a
    rule, whatever custom file was loaded, so the lookup never fails.
    On an engineer whose custom rules (if any) have templates that
    [format] accepts, for every prompt, every history and every adapter
    (one that answers or one that raises), the call ends with a
    returned string, never with a raised exception. *)
Lemma enhance_prompt_total (env : Env) (provider : LLMProvider)
    (history : list PromptEnhancement) (prompt : string) (w : World) :
  let self :=
    mkEngineer provider history (fst (load_enhancement_rules (rules_file env))) in
  is_Some (enhancement_rules self !! "default") /\
  is_Some (enhancement_rules self !! detect_prompt_type prompt) /\
  (custom_templates_ok (rules_file env) ->
   exists (text : string) (self' : PromptEngineer) (w' : World),
     enhance_prompt env self prompt w = (Ok text, self', w')).
Proof.
  intros self. split; [apply loaded_rules_default|].
  split; [apply detected_rule_exists|].
  intros Hok.
  destruct (detected_rule_exists (rules_file env) prompt) as [rule Hrule].
  pose proof (loaded_templates_ok _ _ _ Hok Hrule) as Ht.
  destruct (template_ok_format _ prompt Ht) as [meta_prompt Hm].
  pose proof (enhance_prompt_cases env self prompt w) as H.
  unfold enhancement_call in H. cbn [enhancement_rules self] in H.
  rewrite Hrule, Hm in H.
  destruct (generate_response env (calls w) _) as [text|e]; eauto.
Qed.

(** C2, at the failing input.  The custom file gives ["default"] the
    template ["Improve: {text}"].  The engineer is the one that the
    constructor builds from that file, the prompt is ["hello"], and the
    adapter, the clock and the environment variables are arbitrary.
    The lookup succeeds, as the specification says, but [format]
    raises [KeyError] for the field [text], and it stands before the
    [try]: [enhance_prompt] raises that [KeyError] to its caller, with
    the adapter not called, where the specification has it return a
    string for every prompt. *)
Theorem enhance_prompt_raises_on_custom_template
    (environ : string -> option string)
    (adapter : list Call -> Call -> Result string)
    (clock : nat -> Timestamp) :
  let env := mkEnv environ unknown_field_rules adapter clock in
  let self := fst (new_engineer env test_provider initial_world) in
  detect_prompt_type "hello" = "default" /\
  enhancement_rules self !! "default" = Some (mkRule "Be brief." "Improve: {text}") /\
  format "Improve: {text}" "hello" = Raise (mkException "KeyError" "'text'") /\
  enhance_prompt env self "hello" initial_world =
    (Raise (mkException "KeyError" "'text'"), self, initial_world) /\
  is_ok (fst (fst (enhance_prompt env self "hello" initial_world))) = false /\
  calls (snd (enhance_prompt env self "hello" initial_world)) = [].
Proof. cbv zeta. repeat split. Qed.

(** C5.  When the adapter answers the meta-prompt with [text],
    [enhance_prompt] returns [text] and the history grows by exactly
    one record, at its end: the prompt, [text], the clock reading, and
    no rating.  The returned value is the record's enhanced prompt. *)
Theorem enhance_prompt_success (env : Env) (self : PromptEngineer)
    (prompt : string) (w : World) (c : Call) (text : string) :
  enhancement_call self prompt = Ok c ->
  generate_response env (calls w) c = Ok text ->
  exists (self' : PromptEngineer) (w' : World) (record : PromptEnhancement),
    enhance_prompt env self prompt w = (Ok text, self', w') /\
    enhancement_history self' = enhancement_history self ++ [record] /\
    original_prompt record = prompt /\
    enhanced_prompt record = text /\
    effectiveness_rating record = None /\
    timestamp record = time_time env (ticks w) /\
    calls w' = calls w ++ [c].
Proof.
  intros Hc Hg. pose proof (enhance_prompt_cases env self prompt w) as H.
  rewrite Hc, Hg in H. rewrite H.
  eexists _, _, _. repeat split.
Qed.

Lemma enhance_prompt_success_witness :
  detect_prompt_type "debug this function" = "coding" /\
  exists (self' : PromptEngineer) (w' : World) (record : PromptEnhancement),
    enhance_prompt fixing_env (fresh_engineer fixing_env) "debug this function"
      initial_world = (Ok "Fixed prompt text", self', w') /\
    enhancement_history self' = [] ++ [record] /\
    original_prompt record = "debug this function" /\
    enhanced_prompt record = "Fixed prompt text" /\
    effectiveness_rating record = None /\
    timestamp record = 0 /\
    calls w' =
      [] ++ [mkCall test_provider
               (String.concat nl
                  [ "";
                    indent +:+ "Consider this coding request: " +:+ dq
                      +:+ "debug this function" +:+ dq ]
                +:+ String.concat nl
                  [ "";
                    indent;
                    indent +:+ "Enhance this request by:";
                    indent +:+ "1. Clarifying the programming language if not specified";
                    indent +:+ "2. Adding requirements for error handling and edge cases";
                    indent +:+ "3. Specifying if documentation is needed";
                    indent +:+ "4. Asking for proper formatting and modular design";
                    indent +:+ "5. Requesting appropriate comments and variable naming";
                    indent;
                    indent +:+ "Return ONLY the enhanced prompt without explanations or preamble.";
                    indent ])
               {[ "system_prompt" := AStr coding_system_prompt ]}].
Proof.
  split; [reflexivity|].
  apply (enhance_prompt_success fixing_env (fresh_engineer fixing_env)
           "debug this function" initial_world).
  - vm_compute. reflexivity.
  - vm_compute. reflexivity.
Defined.

(* ================================================================== *)
(** * Feedback                                                         *)
(* ================================================================== *)

Lemma in_range_dec (index : Z) (n : nat) :
  ((0 <=? index) && (index <? Z.of_nat n))%bool = true <-> 0 <= index < Z.of_nat n.
Proof. rewrite andb_true_iff, Z.leb_le, Z.ltb_lt. reflexivity. Qed.

Lemma record_effectiveness_in_range (self : PromptEngineer) (index rating : Z)
    (w : World) :
  0 <= index < Z.of_nat (length (enhancement_history self)) ->
  record_effectiveness self index rating w =
  (set_history self
     (alter (set_rating rating) (Z.to_nat index) (enhancement_history self)),
   log [RecordedRating rating index] w).
Proof.
  intros H. apply in_range_dec in H. unfold record_effectiveness. now rewrite H.
Qed.

Lemma record_effectiveness_out_of_range (self : PromptEngineer) (index rating : Z)
    (w : World) :
  ~ (0 <= index < Z.of_nat (length (enhancement_history self))) ->
  record_effectiveness self index rating w =
  (self, log [InvalidEnhancementIndex index] w).
Proof.
  intros H. rewrite <- in_range_dec in H. unfold record_effectiveness.
  destruct ((0 <=? index) && _)%bool; [now contradiction H | reflexivity].
Qed.

(** C7.  For an index in range, [record_effectiveness] changes the
    rating of the record at that index and nothing else: that record
    keeps its original prompt, its enhanced prompt and its timestamp,
    every record at another index is the same as before, and the
    history has the same length. *)
Theorem record_effectiveness_frame (self : PromptEngineer) (index rating : Z)
    (w : World) :
  0 <= index < Z.of_nat (length (enhancement_history self)) ->
  let self' := fst (record_effectiveness self index rating w) in
  length (enhancement_history self') = length (enhancement_history self) /\
  (forall j : nat,
     j <> Z.to_nat index ->
     enhancement_history self' !! j = enhancement_history self !! j) /\
  (exists r r' : PromptEnhancement,
     enhancement_history self !! Z.to_nat index = Some r /\
     enhancement_history self' !! Z.to_nat index = Some r' /\
     original_prompt r' = original_prompt r /\
     enhanced_prompt r' = enhanced_prompt r /\
     timestamp r' = timestamp r /\
     effectiveness_rating r' = Some rating) /\
  llm_provider self' = llm_provider self /\
  enhancement_rules self' = enhancement_rules self.
Proof.
  intros H self'. subst self'.
  rewrite (record_effectiveness_in_range _ _ _ _ H).
  cbn [fst set_history enhancement_history llm_provider enhancement_rules].
  split; [apply length_alter|].
  split; [intros j Hj; now apply list_lookup_alter_ne|].
  split; [|split; reflexivity].
  destruct (lookup_lt_is_Some_2 (enhancement_history self) (Z.to_nat index))
    as [r Hr]; [lia|].
  exists r, (set_rating rating r). rewrite list_lookup_alter_eq, Hr.
  repeat split.
Qed.

Lemma record_effectiveness_frame_witness :
  enhancement_history (fst (record_effectiveness three_records 1 4 initial_world)) =
    [mkEnhancement "a" "A" 10 None;
     mkEnhancement "b" "B" 20 (Some 4);
     mkEnhancement "c" "C" 30 None] /\
  length (enhancement_history
            (fst (record_effectiveness three_records 1 4 initial_world))) =
  length (enhancement_history three_records).
Proof.
  split; [reflexivity|].
  apply (record_effectiveness_frame three_records 1 4 initial_world).
  simpl. lia.
Defined.

(** The endpoint above [record_effectiveness]: it hands the index to
    every engineer and answers ["success"] whether or not any of them
    has a record at that index. *)
Lemma provide_feedback_status (request : FeedbackRequest) (st : Server) :
  fst (provide_feedback request st) = Returned "success".
Proof.
  unfold provide_feedback.
  destruct (record_all _ _ _ _) as [engineers w]. reflexivity.
Qed.

Lemma record_all_out_of_range (engineers : list (string * PromptEngineer))
    (index rating : Z) (w : World) :
  Forall (fun entry =>
            ~ (0 <= index < Z.of_nat (length (enhancement_history (snd entry)))))
         engineers ->
  fst (record_all engineers index rating w) = engineers.
Proof.
  revert w. induction engineers as [|[k engineer] rest IH]; intros w H.
  - reflexivity.
  - apply Forall_cons in H as [Hhd Htl]. cbn [record_all].
    rewrite (record_effectiveness_out_of_range _ _ _ _ Hhd).
    specialize (IH (log [InvalidEnhancementIndex index] w) Htl).
    destruct (record_all rest index rating _) as [rest' w2].
    cbn [fst] in *. now subst.
Qed.

(* ================================================================== *)
(** * The registries                                                   *)
(* ================================================================== *)

Ltac unfold_M := unfold mbind, M_bind, bind, mret, M_ret, ret in *.

Lemma assoc_get_app {V} (l : list (string * V)) (k k' : string) (v : V) :
  assoc_get (l ++ [(k', v)]) k =
  match assoc_get l k with
  | Some x => Some x
  | None => if String.eqb k' k then Some v else None
  end.
Proof.
  induction l as [|[k0 v0] l IH]; simpl; [reflexivity|].
  destruct (String.eqb k0 k); [reflexivity | exact IH].
Qed.

Lemma assoc_get_set {V} (l : list (string * V)) (k k' : string) (v : V) :
  is_Some (assoc_get l k) ->
  assoc_get (assoc_set l k v) k' =
  if String.eqb k k' then Some v else assoc_get l k'.
Proof.
  induction l as [|[k0 v0] l IH]; simpl; intros H.
  - now destruct H.
  - destruct (String.eqb_spec k0 k) as [->|Hne]; simpl.
    + destruct (String.eqb k k'); reflexivity.
    + destruct (String.eqb_spec k0 k') as [->|Hne'].
      * destruct (String.eqb_spec k k') as [->|_]; [now contradiction Hne | reflexivity].
      * now apply IH.
Qed.

(** [get_or_create_provider] answers under the key of its arguments,
    leaves the engineers and the world alone, and changes no state when
    it raises. *)
Lemma get_or_create_provider_spec (env : Env) (name : string) (key : Any)
    (model : option string) (st : Server) :
  match get_or_create_provider env name key model st with
  | (Ok (provider_id, p), st0) =>
      provider_id = provider_key_of name model /\
      prompt_engineers st0 = prompt_engineers st /\ world st0 = world st
  | (Raise e, st0) => st0 = st
  end.
Proof.
  unfold get_or_create_provider.
  destruct (llm_providers st !! provider_key_of name model); [auto|].
  destruct (connector_class name); [|reflexivity].
  destruct (new_connector env _ key model); cbn; auto.
Qed.

(** [get_or_create_prompt_engineer] always answers; afterwards an
    engineer is held under the handle, and every history is as it was
    (that of a new engineer is empty). *)
Lemma get_or_create_prompt_engineer_spec (env : Env) (provider_id : string)
    (p : LLMProvider) (st : Server) :
  exists st0,
    get_or_create_prompt_engineer env provider_id p st = (Ok provider_id, st0) /\
    is_Some (assoc_get (prompt_engineers st0) provider_id) /\
    calls (world st0) = calls (world st) /\
    (forall k, history_of st0 k = history_of st k).
Proof.
  unfold get_or_create_prompt_engineer.
  destruct (assoc_get (prompt_engineers st) provider_id) as [engineer|] eqn:Hget.
  - exists st. rewrite Hget. eauto.
  - unfold new_engineer.
    destruct (load_enhancement_rules (rules_file env)) as [rules records].
    eexists. split; [reflexivity|]. cbn [prompt_engineers world].
    rewrite assoc_get_app, Hget, String.eqb_refl.
    split; [eauto|]. split; [reflexivity|].
    intros k. unfold history_of. cbn [prompt_engineers].
    rewrite assoc_get_app.
    destruct (assoc_get (prompt_engineers st) k); [reflexivity|].
    destruct (String.eqb provider_id k); reflexivity.
Qed.

Lemma process_setup_spec (env : Env) (request : PromptRequest) (st : Server) :
  match process_setup env request st with
  | (Ok (handle, p), st0) =>
      handle = provider_key_of (provider request) (request_model request) /\
      is_Some (assoc_get (prompt_engineers st0) handle) /\
      calls (world st0) = calls (world st) /\
      (forall k, history_of st0 k = history_of st k)
  | (Raise e, st0) => st0 = st
  end.
Proof.
  unfold process_setup. unfold_M.
  pose proof (get_or_create_provider_spec env (provider request)
                (default ANone (options request !! "api_key"))
                (request_model request) st) as H.
  destruct (get_or_create_provider _ _ _ _ st) as [[[provider_id p]|e] st1];
    [|exact H].
  destruct H as (-> & Heng & Hw).
  destruct (get_or_create_prompt_engineer_spec env
              (provider_key_of (provider request) (request_model request)) p st1)
    as (st0 & -> & Hsome & Hcalls & Hhist).
  split; [reflexivity|]. split; [exact Hsome|].
  split; [now rewrite Hcalls, Hw|].
  intros k. rewrite Hhist. unfold history_of. now rewrite Heng.
Qed.

(** The enhancement step of a request that is not bypassed, in terms of
    [enhance_prompt] on the engineer held under the handle. *)
Lemma process_enhance_spec (env : Env) (request : PromptRequest) (handle : string)
    (self : PromptEngineer) (st0 : Server) :
  bypass_enhancement request = false ->
  assoc_get (prompt_engineers st0) handle = Some self ->
  process_enhance env request handle st0 =
  match enhance_prompt env self (prompt request) (world st0) with
  | (Ok final_prompt, self', w') =>
      (Ok (final_prompt, Some (Z.of_nat (length (enhancement_history self')) - 1)),
       mkServer (llm_providers st0) (assoc_set (prompt_engineers st0) handle self') w')
  | (Raise e, self', w') =>
      (Raise e,
       mkServer (llm_providers st0) (assoc_set (prompt_engineers st0) handle self') w')
  end.
Proof.
  intros Hbypass Hget. unfold process_enhance. rewrite Hbypass. unfold_M.
  unfold with_engineer. rewrite Hget.
  destruct (enhance_prompt env self (prompt request) (world st0))
    as [[[final_prompt|e] self'] w']; [|reflexivity].
  unfold history_length. cbn [prompt_engineers].
  rewrite assoc_get_set, String.eqb_refl by eauto. reflexivity.
Qed.

Lemma history_of_set (st : Server) (handle k : string) (self' : PromptEngineer)
    (w : World) :
  is_Some (assoc_get (prompt_engineers st) handle) ->
  history_of (mkServer (llm_providers st)
                (assoc_set (prompt_engineers st) handle self') w) k =
  if String.eqb handle k then enhancement_history self' else history_of st k.
Proof.
  intros H. unfold history_of. cbn [prompt_engineers].
  rewrite assoc_get_set by exact H.
  destruct (String.eqb handle k); reflexivity.
Qed.

(** [process_prompt] by cases on its three parts. *)
Lemma process_prompt_cases (env : Env) (request : PromptRequest) (st : Server) :
  match process_setup env request st with
  | (Raise e, st0) =>
      process_prompt env request st =
      (HTTPException HTTP_500_INTERNAL_SERVER_ERROR (exc_str e),
       set_world st0 (log [ErrorProcessing e] (world st0)))
  | (Ok (handle, p), st0) =>
      match process_enhance env request handle st0 with
      | (Raise e, st1) =>
          process_prompt env request st =
          (HTTPException HTTP_500_INTERNAL_SERVER_ERROR (exc_str e),
           set_world st1 (log [ErrorProcessing e] (world st1)))
      | (Ok (final_prompt, index), st1) =>
          let c := mkCall p final_prompt (options request) in
          let w := mkWorld (calls (world st1) ++ [c]) (logged (world st1))
                           (ticks (world st1)) in
          match generate_response env (calls (world st1)) c with
          | Ok llm_response =>
              process_prompt env request st =
              (Returned (mkPromptResponse llm_response index), set_world st1 w)
          | Raise e =>
              process_prompt env request st =
              (HTTPException HTTP_500_INTERNAL_SERVER_ERROR (exc_str e),
               set_world (set_world st1 w) (log [ErrorProcessing e] w))
          end
      end
  end.
Proof.
  unfold process_prompt, process_prompt_body. unfold_M.
  destruct (process_setup env request st) as [[[handle p]|e] st0]; [|reflexivity].
  destruct (process_enhance env request handle st0)
    as [[[final_prompt index]|e] st1]; [|reflexivity].
  unfold generate, call_adapter. cbv zeta.
  destruct (generate_response env (calls (world st1)) _) as [text|e]; reflexivity.
Qed.

Lemma history_of_set_world (st : Server) (w : World) (k : string) :
  history_of (set_world st w) k = history_of st k.
Proof. reflexivity. Qed.

(* ================================================================== *)
(** * Processing a request                                             *)
(* ================================================================== *)

(** C6.  A request with [bypass_enhancement] set skips the enhancement:
    every history is as before (no record is added), a returned
    response has no enhancement index, and once the provider has been
    obtained the adapter is called exactly once, with the original
    prompt and the options of the request, and its answer decides the
    result. *)
Theorem process_prompt_bypass (env : Env) (request : PromptRequest) (st : Server) :
  bypass_enhancement request = true ->
  let result := fst (process_prompt env request st) in
  let st' := snd (process_prompt env request st) in
  (forall handle, history_of st' handle = history_of st handle) /\
  (forall r, result = Returned r -> enhancement_index r = None) /\
  (forall handle p st0,
     process_setup env request st = (Ok (handle, p), st0) ->
     let c := mkCall p (prompt request) (options request) in
     calls (world st') = calls (world st) ++ [c] /\
     result =
       match generate_response env (calls (world st)) c with
       | Ok llm_response => Returned (mkPromptResponse llm_response None)
       | Raise e => HTTPException HTTP_500_INTERNAL_SERVER_ERROR (exc_str e)
       end).
Proof.
  intros Hbypass result st'. subst result st'.
  pose proof (process_prompt_cases env request st) as Hcases.
  pose proof (process_setup_spec env request st) as Hsetup.
  destruct (process_setup env request st) as [[[handle p]|e] st0].
  - destruct Hsetup as (_ & _ & Hcalls & Hhist).
    unfold process_enhance in Hcases. rewrite Hbypass in Hcases.
    unfold_M. cbv zeta in Hcases. rewrite Hcalls in Hcases.
    destruct (generate_response env (calls (world st))
                (mkCall p (prompt request) (options request))) as [text|e] eqn:Hg;
      rewrite Hcases; cbn [fst snd].
    + split; [exact Hhist|]. split.
      * intros r Hr. now injection Hr as <-.
      * intros h q s Heq. injection Heq as <- <- <-. cbv zeta.
        rewrite Hg. split; reflexivity.
    + split; [exact Hhist|]. split.
      * intros r Hr. discriminate Hr.
      * intros h q s Heq. injection Heq as <- <- <-. cbv zeta.
        rewrite Hg. split; reflexivity.
  - subst st0. rewrite Hcases. cbn [fst snd].
    split; [intros k; reflexivity|]. split.
    + intros r Hr. discriminate Hr.
    + intros h q s Heq. discriminate Heq.
Qed.

Lemma process_prompt_bypass_witness :
  fst (process_prompt echo_env (hello_request true) initial_server)
    = Returned (mkPromptResponse "answer to: hello" None) /\
  forall r,
    fst (process_prompt echo_env (hello_request true) initial_server) = Returned r ->
    enhancement_index r = None.
Proof.
  split; [reflexivity|].
  apply (process_prompt_bypass echo_env (hello_request true) initial_server).
  reflexivity.
Defined.

(** The scenario of the bypassed ["hello"], evaluated: one adapter call,
    on ["hello"], and an engineer with an empty history. *)
Lemma process_prompt_bypass_scenario :
  let st' := snd (process_prompt echo_env (hello_request true) initial_server) in
  map call_prompt (calls (world st')) = ["hello"] /\
  map (fun entry => enhancement_history (snd entry)) (prompt_engineers st') = [[]] /\
  get_enhancement_history st' = [].
Proof. vm_compute. repeat split. Qed.

(** C9.  When the call that generates the answer fails, whatever the
    enhancement step did before (it ran, it fell back to the prompt, or
    it was bypassed), [process_prompt] does not return a response: it
    raises one [HTTPException], with status 500 and the description of
    the adapter's failure as its detail. *)
Theorem process_prompt_final_failure (env : Env) (request : PromptRequest)
    (st st0 st1 : Server) (handle : string) (p : LLMProvider)
    (final_prompt : string) (index : option Z) (e : Exception) :
  process_setup env request st = (Ok (handle, p), st0) ->
  process_enhance env request handle st0 = (Ok (final_prompt, index), st1) ->
  generate_response env (calls (world st1))
    (mkCall p final_prompt (options request)) = Raise e ->
  fst (process_prompt env request st) = HTTPException 500 (exc_str e).
Proof.
  intros Hsetup Henh Hg.
  pose proof (process_prompt_cases env request st) as H.
  rewrite Hsetup, Henh in H. cbv zeta in H. rewrite Hg in H. rewrite H.
  reflexivity.
Qed.

Lemma process_prompt_final_failure_witness :
  (* enhancement succeeded *)
  fst (process_prompt one_answer_env (hello_request false) initial_server)
    = HTTPException 500 "503 Server Error" /\
  (* enhancement fell back to the prompt *)
  fst (process_prompt failing_env (hello_request false) initial_server)
    = HTTPException 500 "connection refused" /\
  (* enhancement bypassed *)
  fst (process_prompt failing_env (hello_request true) initial_server)
    = HTTPException 500 "connection refused".
Proof.
  split; [|split].
  - eapply (process_prompt_final_failure one_answer_env (hello_request false)
              initial_server)
      with (e := mkException "HTTPError" "503 Server Error").
    + vm_compute. reflexivity.
    + vm_compute. reflexivity.
    + vm_compute. reflexivity.
  - eapply (process_prompt_final_failure failing_env (hello_request false)
              initial_server)
      with (e := mkException "ConnectionError" "connection refused").
    + vm_compute. reflexivity.
    + vm_compute. reflexivity.
    + vm_compute. reflexivity.
  - eapply (process_prompt_final_failure failing_env (hello_request true)
              initial_server)
      with (e := mkException "ConnectionError" "connection refused").
    + vm_compute. reflexivity.
    + vm_compute. reflexivity.
    + vm_compute. reflexivity.
Defined.

(** C10.  For a request that is not bypassed, the enhancement index of
    a returned response is the length of the engineer's history after
    [enhance_prompt], minus one, whether or not the adapter call of the
    enhancement succeeded.  When that call failed, every history is as
    it was before the request (no record was added), so the index is
    that of the last record of an earlier request, or -1 when the
    history is empty. *)
Theorem process_prompt_index (env : Env) (request : PromptRequest) (st : Server) :
  bypass_enhancement request = false ->
  let handle := provider_key_of (provider request) (request_model request) in
  (forall r st',
     process_prompt env request st = (Returned r, st') ->
     enhancement_index r = Some (Z.of_nat (length (history_of st' handle)) - 1)) /\
  (forall p st0 self c e r st',
     process_setup env request st = (Ok (handle, p), st0) ->
     assoc_get (prompt_engineers st0) handle = Some self ->
     enhancement_call self (prompt request) = Ok c ->
     generate_response env (calls (world st0)) c = Raise e ->
     process_prompt env request st = (Returned r, st') ->
     (forall k, history_of st' k = history_of st k) /\
     enhancement_index r = Some (Z.of_nat (length (history_of st handle)) - 1) /\
     (history_of st handle = [] -> enhancement_index r = Some (-1)) /\
     (history_of st handle <> [] ->
      exists (index : Z) (record : PromptEnhancement),
        enhancement_index r = Some index /\ 0 <= index /\
        history_of st handle !! Z.to_nat index = Some record)).
Proof.
  intros Hbypass handle.
  assert (Hafter : forall r st',
            process_prompt env request st = (Returned r, st') ->
            enhancement_index r =
              Some (Z.of_nat (length (history_of st' handle)) - 1)).
  { intros r st' Hret.
    pose proof (process_prompt_cases env request st) as Hcases.
    pose proof (process_setup_spec env request st) as Hsetup.
    destruct (process_setup env request st) as [[[h p]|e] st0];
      [|rewrite Hcases in Hret; discriminate Hret].
    destruct Hsetup as (-> & [self Hself] & _ & _). fold handle in Hself, Hcases.
    rewrite (process_enhance_spec env request handle self st0 Hbypass Hself)
      in Hcases.
    destruct (enhance_prompt env self (prompt request) (world st0))
      as [[[final_prompt|e] self'] w']; cbv beta iota zeta in Hcases;
      [|rewrite Hcases in Hret; discriminate Hret].
    match type of Hcases with
    | match ?answer with Ok _ => _ | Raise _ => _ end =>
        destruct answer as [text|e]
    end;
      rewrite Hcases in Hret; [|discriminate Hret].
    injection Hret as <- <-. cbn [enhancement_index].
    change (history_of (set_world ?s ?w) handle) with (history_of s handle).
    rewrite history_of_set by eauto. now rewrite String.eqb_refl. }
  split; [exact Hafter|].
  intros p st0 self c e r st' Hsetup Hself Hc Hg Hret.
  assert (Hhist : forall k, history_of st' k = history_of st k).
  { pose proof (process_prompt_cases env request st) as Hcases.
    pose proof (process_setup_spec env request st) as Hspec.
    rewrite Hsetup in Hcases, Hspec. destruct Hspec as (_ & _ & _ & Hhist0).
    rewrite (process_enhance_spec env request handle self st0 Hbypass Hself)
      in Hcases.
    rewrite (enhance_prompt_adapter_failure env self (prompt request) (world st0)
               c e Hc Hg) in Hcases.
    cbv beta iota zeta in Hcases.
    match type of Hcases with
    | match ?answer with Ok _ => _ | Raise _ => _ end =>
        destruct answer as [text|e']
    end;
      rewrite Hcases in Hret; [|discriminate Hret].
    injection Hret as <- <-. intros k.
    change (history_of (set_world ?s ?w) k) with (history_of s k).
    rewrite history_of_set by eauto. rewrite <- Hhist0.
    destruct (String.eqb_spec handle k) as [<-|_]; [|reflexivity].
    unfold history_of. now rewrite Hself. }
  assert (Hindex : enhancement_index r =
                   Some (Z.of_nat (length (history_of st handle)) - 1)).
  { rewrite (Hafter r st' Hret). now rewrite Hhist. }
  split; [exact Hhist|]. split; [exact Hindex|]. split.
  - intros Hempty. rewrite Hindex, Hempty. reflexivity.
  - intros Hne.
    destruct (history_of st handle) as [|record0 rest] eqn:Hh; [now contradiction Hne|].
    destruct (lookup_lt_is_Some_2 (record0 :: rest) (length rest)) as [record Hrec];
      [simpl; lia|].
    exists (Z.of_nat (length rest)), record.
    split; [|split; [lia|now rewrite Nat2Z.id]].
    rewrite Hindex. f_equal. simpl length. lia.
Qed.

Lemma process_prompt_index_witness :
  (* a first request whose enhancement fails: the index is -1 *)
  fst (process_prompt late_answer_env (hello_request false) initial_server)
    = Returned (mkPromptResponse "late answer" (Some (-1))) /\
  (forall r st',
     process_prompt late_answer_env (hello_request false) initial_server
       = (Returned r, st') ->
     enhancement_index r =
       Some (Z.of_nat (length (history_of st' "openai_default")) - 1)) /\
  (* a second request whose enhancement fails: the index is that of the
     record of the first request *)
  fst (process_prompt third_call_fails_env (hello_request false) after_debug_request)
    = Returned (mkPromptResponse "answer 3" (Some 0)) /\
  history_of after_debug_request "openai_default"
    = [mkEnhancement "debug this function" "answer 0" 0 None] /\
  history_of
    (snd (process_prompt third_call_fails_env (hello_request false) after_debug_request))
    "openai_default"
    = [mkEnhancement "debug this function" "answer 0" 0 None].
Proof.
  split; [reflexivity|]. split; [|repeat split].
  apply (process_prompt_index late_answer_env (hello_request false) initial_server).
  reflexivity.
Defined.

(* ================================================================== *)
(** * More on category detection                                       *)
(* ================================================================== *)

Lemma lower_ascii_idempotent (c : ascii) : lower_ascii (lower_ascii c) = lower_ascii c.
Proof. destruct c as [[] [] [] [] [] [] [] []]; reflexivity. Qed.

Lemma lower_idempotent (s : string) : lower (lower s) = lower s.
Proof.
  induction s as [|c s IH]; [reflexivity|].
  cbn [lower]. now rewrite lower_ascii_idempotent, IH.
Qed.

Lemma lower_length (s : string) : String.length (lower s) = String.length s.
Proof. induction s as [|c s IH]; [reflexivity|]. cbn [lower String.length]. now rewrite IH. Qed.

(** X1.  Detection does not see the case of letters: two prompts that
    are equal after lower-casing get the same category, and so does a
    prompt and its lower-cased form. *)
Theorem detect_prompt_type_case_insensitive (p q : string) :
  detect_prompt_type (lower p) = detect_prompt_type p /\
  (lower p = lower q -> detect_prompt_type p = detect_prompt_type q).
Proof.
  split.
  - unfold detect_prompt_type. now rewrite lower_idempotent.
  - intros H. unfold detect_prompt_type. now rewrite H.
Qed.

Lemma detect_prompt_type_case_insensitive_witness :
  detect_prompt_type "Explain THIS" = detect_prompt_type "eXPLAIN this".
Proof.
  apply (detect_prompt_type_case_insensitive "Explain THIS" "eXPLAIN this").
  reflexivity.
Defined.

(** X2.  The answer of detection is always one of the four category
    names. *)
Theorem detect_prompt_type_closed (prompt : string) :
  In (detect_prompt_type prompt) ["coding"; "creative"; "analytical"; "default"].
Proof.
  unfold detect_prompt_type.
  destruct (any_in coding_terms _); [simpl; tauto|].
  destruct (any_in creative_terms _); [simpl; tauto|].
  destruct (any_in analytical_terms _); simpl; tauto.
Qed.

Lemma startswith_length (term s : string) :
  startswith term s = true -> (String.length term <= String.length s)%nat.
Proof.
  revert s; induction term as [|a term IH]; intros [|b s] H; simpl in *;
    try lia; try discriminate.
  destruct (Ascii.eqb a b); [|discriminate]. apply IH in H. lia.
Qed.

Lemma contains_length (term s : string) :
  contains term s = true -> (String.length term <= String.length s)%nat.
Proof.
  induction s as [|c s IH]; cbn [contains]; intros H;
    apply orb_true_iff in H as [H|H].
  - now apply startswith_length.
  - discriminate.
  - now apply startswith_length.
  - apply IH in H. simpl. lia.
Qed.

Lemma any_in_short (terms : list string) (s : string) (n : nat) :
  Forall (fun term => (n <= String.length term)%nat) terms ->
  (String.length s < n)%nat -> any_in terms s = false.
Proof.
  intros Hterms Hs. unfold any_in.
  destruct (existsb _ terms) eqn:H; [|reflexivity].
  apply existsb_exists in H as [term [Hin Hc]].
  apply contains_length in Hc.
  rewrite Forall_forall in Hterms. apply list_elem_of_In, Hterms in Hin. lia.
Qed.

(** X3.  No keyword has fewer than three characters, so a prompt of
    fewer than three characters, the empty prompt included, is
    ["default"]. *)
Theorem detect_prompt_type_short (prompt : string) :
  (String.length prompt < 3)%nat -> detect_prompt_type prompt = "default".
Proof.
  intros H. rewrite <- lower_length in H. unfold detect_prompt_type.
  rewrite (any_in_short coding_terms _ 3), (any_in_short creative_terms _ 3),
    (any_in_short analytical_terms _ 3); try assumption; try reflexivity;
    repeat constructor.
Qed.

Lemma detect_prompt_type_short_witness :
  detect_prompt_type "" = "default" /\ detect_prompt_type "Hi" = "default".
Proof.
  split.
  - apply (detect_prompt_type_short ""). simpl. lia.
  - apply (detect_prompt_type_short "Hi"). simpl. lia.
Defined.

Lemma append_assoc (a b c : string) : (a +:+ b) +:+ c = a +:+ b +:+ c.
Proof.
  induction a as [|x a IH]; [reflexivity|].
  change (String x ((a +:+ b) +:+ c) = String x (a +:+ b +:+ c)). now rewrite IH.
Qed.

Lemma occurs_inside (term s before after : string) :
  occurs term s -> occurs term (before +:+ s +:+ after).
Proof.
  intros [b [a ->]]. exists (before +:+ b), (a +:+ after).
  now rewrite !append_assoc.
Qed.

Lemma any_in_inside (terms : list string) (s before after : string) :
  any_in terms (lower s) = true ->
  any_in terms (lower (before +:+ s +:+ after)) = true.
Proof.
  rewrite !any_in_spec. intros [term [Hin Hocc]]. exists term. split; [exact Hin|].
  rewrite !lower_app. now apply occurs_inside.
Qed.

(** X4.  Text added before and after a prompt never lowers the priority
    of its category (coding over creative over analytical over
    default); in particular a prompt detected as ["coding"] stays
    ["coding"] inside any longer prompt. *)
Theorem detect_prompt_type_monotone (prompt before after : string) :
  (category_priority (detect_prompt_type prompt)
   <= category_priority (detect_prompt_type (before +:+ prompt +:+ after)))%nat /\
  (detect_prompt_type prompt = "coding" ->
   detect_prompt_type (before +:+ prompt +:+ after) = "coding").
Proof.
  pose proof (any_in_inside coding_terms prompt before after) as H1.
  pose proof (any_in_inside creative_terms prompt before after) as H2.
  pose proof (any_in_inside analytical_terms prompt before after) as H3.
  unfold detect_prompt_type.
  destruct (any_in coding_terms (lower prompt));
    destruct (any_in creative_terms (lower prompt));
    destruct (any_in analytical_terms (lower prompt));
    try rewrite (H1 eq_refl); try rewrite (H2 eq_refl); try rewrite (H3 eq_refl);
    destruct (any_in coding_terms (lower (before +:+ prompt +:+ after)));
    destruct (any_in creative_terms (lower (before +:+ prompt +:+ after)));
    destruct (any_in analytical_terms (lower (before +:+ prompt +:+ after)));
    (split; [vm_compute; lia | intros H; first [reflexivity | discriminate H]]).
Qed.

Lemma detect_prompt_type_monotone_witness :
  detect_prompt_type "Please write: fix the bug. Thanks" = "coding".
Proof.
  apply (detect_prompt_type_monotone "fix the bug" "Please write: " ". Thanks").
  reflexivity.
Defined.

(* ================================================================== *)
(** * More on templates and rules                                      *)
(* ================================================================== *)

(** Once the rule is found and [format] has given the meta-prompt,
    [enhance_prompt] places the call, whatever the adapter then does;
    and a call that it places is that one. *)
Lemma enhance_prompt_places_call (env : Env) (self : PromptEngineer)
    (prompt : string) (w : World) (c : Call) :
  enhancement_call self prompt = Ok c ->
  calls (snd (enhance_prompt env self prompt w)) = calls w ++ [c].
Proof.
  intros Hc. pose proof (enhance_prompt_cases env self prompt w) as H.
  rewrite Hc in H.
  destruct (generate_response env (calls w) c); now rewrite H.
Qed.

Lemma enhance_prompt_placed_call (env : Env) (self : PromptEngineer)
    (prompt : string) (w : World) (c : Call) :
  calls (snd (enhance_prompt env self prompt w)) = calls w ++ [c] ->
  enhancement_call self prompt = Ok c.
Proof.
  intros Hcalls. pose proof (enhance_prompt_cases env self prompt w) as H.
  destruct (enhancement_call self prompt) as [c'|e] eqn:Hc.
  - rewrite (enhance_prompt_places_call env self prompt w c' Hc) in Hcalls.
    apply app_inv_head in Hcalls. now injection Hcalls as ->.
  - rewrite H in Hcalls. cbn [snd] in Hcalls.
    rewrite <- (app_nil_r (calls w)) in Hcalls at 1.
    apply app_inv_head in Hcalls. discriminate Hcalls.
Qed.

(** X5.  With the built-in rules, [enhance_prompt] always gets as far
    as the adapter call: for every prompt it places one call, to the
    engineer's provider; the meta-prompt is the template of the
    detected category with the prompt put in verbatim at its one field
    (braces in the prompt are not read as fields), and the only option
    is the rule's system prompt. *)
Theorem enhance_prompt_default_rules (env : Env) (p : LLMProvider)
    (history : list PromptEnhancement) (prompt : string) (w : World) :
  exists rule : EnhancementRule,
    default_rules !! detect_prompt_type prompt = Some rule /\
    calls (snd (enhance_prompt env (mkEngineer p history default_rules) prompt w)) =
      calls w ++
      [mkCall p
         (before_brace (template rule) +:+ prompt +:+ after_brace (template rule))
         {[ "system_prompt" := AStr (system_prompt rule) ]}] /\
    occurs prompt (before_brace (template rule) +:+ prompt +:+ after_brace (template rule)).
Proof.
  destruct (detected_rule_exists FileNotFound prompt) as [rule Hrule].
  cbn [load_enhancement_rules fst] in Hrule.
  exists rule. split; [exact Hrule|].
  destruct (default_templates_format _ _ Hrule) as (_ & _ & Hformat).
  split.
  - apply enhance_prompt_places_call.
    unfold enhancement_call. cbn [enhancement_rules llm_provider].
    now rewrite Hrule, Hformat.
  - exists (before_brace (template rule)), (after_brace (template rule)). reflexivity.
Qed.

(** X6.  A template without any brace is accepted, and the prompt is
    then left out: [enhance_prompt] sends the template itself as the
    meta-prompt, whatever the prompt. *)
Theorem enhance_prompt_template_without_field (env : Env) (self : PromptEngineer)
    (prompt : string) (w : World) (rule : EnhancementRule) :
  enhancement_rules self !! detect_prompt_type prompt = Some rule ->
  brace_free (template rule) = true ->
  calls (snd (enhance_prompt env self prompt w)) =
    calls w ++
    [mkCall (llm_provider self) (template rule)
       {[ "system_prompt" := AStr (system_prompt rule) ]}].
Proof.
  intros Hrule Hfree. apply enhance_prompt_places_call.
  unfold enhancement_call, format.
  now rewrite Hrule, (format_from_brace_free _ prompt Hfree).
Qed.

Lemma enhance_prompt_template_without_field_witness :
  calls (snd (enhance_prompt echo_env
                (mkEngineer test_provider []
                   (dict_update default_rules
                      {[ "default" := mkRule "Be brief." "Improve it." ]}))
                "hello" initial_world))
  = calls initial_world ++
    [mkCall test_provider "Improve it." {[ "system_prompt" := AStr "Be brief." ]}].
Proof.
  apply (enhance_prompt_template_without_field echo_env
           (mkEngineer test_provider []
              (dict_update default_rules {[ "default" := mkRule "Be brief." "Improve it." ]}))
           "hello" initial_world (mkRule "Be brief." "Improve it.")).
  - reflexivity.
  - reflexivity.
Defined.

Lemma format_from_field (name rest prompt : string) :
  brace_free name = true ->
  forall read : string,
    format_from (Field read) (name +:+ String "}" rest) prompt =
    emit_field (read +:+ name) prompt (format_from Text rest prompt).
Proof.
  induction name as [|c name IH]; intros Hfree read.
  - change (EmptyString +:+ String "}" rest) with (String "}"%char rest).
    cbn [format_from Ascii.eqb Bool.eqb]. now rewrite append_empty.
  - simpl in Hfree. apply andb_true_iff in Hfree as [Hc Hfree].
    apply andb_true_iff in Hc as [_ Hc]. apply negb_true_iff in Hc.
    change (String c name +:+ String "}" rest)
      with (String c (name +:+ String "}" rest)).
    cbn [format_from]. rewrite Hc, (IH Hfree).
    now rewrite append_assoc.
Qed.

Lemma format_unknown_field (before name after prompt : string) :
  brace_free before = true -> unknown_field_name name = true ->
  format (before +:+ "{" +:+ name +:+ "}" +:+ after) prompt =
  Raise (mkException "KeyError" (sq +:+ name +:+ sq)).
Proof.
  intros Hbefore Hname.
  change (before +:+ "{" +:+ name +:+ "}" +:+ after)
    with (before +:+ String "{" (name +:+ String "}" after)).
  unfold unknown_field_name in Hname.
  apply andb_true_iff in Hname as [Hname Hindex].
  apply andb_true_iff in Hname as [Hplain Hfree].
  destruct (get_integer 0 name) eqn:Hinteger; try discriminate Hindex.
  apply negb_true_iff in Hindex.
  assert (Hvalue : field_value name prompt =
                   Raise (mkException "KeyError" (sq +:+ name +:+ sq))).
  { unfold field_value. now rewrite Hplain, Hinteger, Hindex. }
  unfold format. rewrite (format_from_literal before _ _ Hbefore).
  destruct name as [|c name]; [discriminate Hinteger|].
  simpl in Hfree.
  apply andb_true_iff in Hfree as [Hc Hfree].
  apply andb_true_iff in Hc as [Hopen Hclose]. apply negb_true_iff in Hopen, Hclose.
  change (String c name +:+ String "}" after)
    with (String c (name +:+ String "}" after)).
  cbn [format_from]. rewrite Ascii.eqb_refl. cbn [format_from].
  rewrite Hopen, Hclose, (format_from_field name after prompt Hfree).
  change (String c EmptyString +:+ name) with (String c name).
  unfold emit_field. now rewrite Hvalue.
Qed.

(** X7.  A template whose first field has a plain name other than
    [prompt], and is no number, makes [enhance_prompt] raise the
    [KeyError] of [format] for that name before the adapter is called:
    the engineer and the world are as before. *)
Theorem enhance_prompt_template_unknown_field (env : Env) (self : PromptEngineer)
    (prompt : string) (w : World) (rule : EnhancementRule)
    (before name after : string) :
  enhancement_rules self !! detect_prompt_type prompt = Some rule ->
  template rule = before +:+ "{" +:+ name +:+ "}" +:+ after ->
  brace_free before = true ->
  unknown_field_name name = true ->
  enhance_prompt env self prompt w =
    (Raise (mkException "KeyError" (sq +:+ name +:+ sq)), self, w).
Proof.
  intros Hrule Htemplate Hbefore Hname.
  pose proof (format_unknown_field before name after prompt Hbefore Hname) as Hformat.
  unfold enhance_prompt. now rewrite Hrule, Htemplate, Hformat.
Qed.

Lemma enhance_prompt_template_unknown_field_witness :
  enhance_prompt echo_env
    (mkEngineer test_provider []
       (dict_update default_rules
          {[ "creative" := mkRule "Be vivid." "Rewrite {text} with {prompt}" ]}))
    "write a story" initial_world
  = (Raise (mkException "KeyError" "'text'"),
     mkEngineer test_provider []
       (dict_update default_rules
          {[ "creative" := mkRule "Be vivid." "Rewrite {text} with {prompt}" ]}),
     initial_world).
Proof.
  apply (enhance_prompt_template_unknown_field echo_env _ "write a story"
           initial_world (mkRule "Be vivid." "Rewrite {text} with {prompt}")
           "Rewrite " "text" " with {prompt}").
  - reflexivity.
  - reflexivity.
  - reflexivity.
  - reflexivity.
Defined.

(** X8.  A rule under a name other than the four built-in categories is
    never used: adding one changes neither the result of
    [enhance_prompt], nor the history it leaves, nor its effects. *)
Theorem custom_category_unused (env : Env) (p : LLMProvider)
    (history : list PromptEnhancement) (rules : gmap string EnhancementRule)
    (category : string) (rule : EnhancementRule) (prompt : string) (w : World) :
  ~ In category ["coding"; "creative"; "analytical"; "default"] ->
  let with_rule :=
    enhance_prompt env (mkEngineer p history (<[category := rule]> rules)) prompt w in
  let without :=
    enhance_prompt env (mkEngineer p history rules) prompt w in
  fst (fst with_rule) = fst (fst without) /\
  enhancement_history (snd (fst with_rule)) = enhancement_history (snd (fst without)) /\
  snd with_rule = snd without.
Proof.
  intros Hnot with_rule without. subst with_rule without.
  assert (Hne : category <> detect_prompt_type prompt).
  { intros ->. apply Hnot. unfold detect_prompt_type.
    destruct (any_in coding_terms _); [simpl; tauto|].
    destruct (any_in creative_terms _); [simpl; tauto|].
    destruct (any_in analytical_terms _); simpl; tauto. }
  unfold enhance_prompt. cbn [enhancement_rules llm_provider enhancement_history].
  rewrite (lookup_insert_ne rules _ _ rule Hne).
  destruct (rules !! detect_prompt_type prompt) as [r|]; [|repeat split].
  destruct (format (template r) prompt) as [meta_prompt|e]; [|repeat split].
  destruct (call_adapter env p meta_prompt _ w) as [[text|e] w1]; [|repeat split].
  unfold new_enhancement. destruct (read_clock env w1) as [now w2].
  repeat split.
Qed.

Lemma custom_category_unused_witness :
  fst (fst (enhance_prompt echo_env
              (mkEngineer test_provider []
                 (<["poetry" := mkRule "Be lyrical." "Verse: {prompt}"]> default_rules))
              "a poem about rain" initial_world))
  = fst (fst (enhance_prompt echo_env (mkEngineer test_provider [] default_rules)
                "a poem about rain" initial_world)).
Proof.
  apply (custom_category_unused echo_env test_provider [] default_rules "poetry"
           (mkRule "Be lyrical." "Verse: {prompt}") "a poem about rain" initial_world).
  simpl. intros [H|[H|[H|[H|[]]]]]; discriminate H.
Defined.

(* ================================================================== *)
(** * More on the pipeline and on feedback                             *)
(* ================================================================== *)

(** X9.  What one call of [enhance_prompt] can do.  The provider and
    the rules stay; the history keeps its records and gets at most one
    more, at its end; at most one adapter call is placed, and it goes to
    the engineer's provider.  A record is added only when a call was
    placed and answered: the record then holds the prompt and that
    answer, unrated, and the answer is what is returned.  When no record
    is added, a returned string is the prompt itself. *)
Theorem enhance_prompt_effects (env : Env) (self : PromptEngineer)
    (prompt : string) (w : World) :
  let result := fst (fst (enhance_prompt env self prompt w)) in
  let self' := snd (fst (enhance_prompt env self prompt w)) in
  let w' := snd (enhance_prompt env self prompt w) in
  llm_provider self' = llm_provider self /\
  enhancement_rules self' = enhancement_rules self /\
  exists (added : list PromptEnhancement) (placed : list Call),
    enhancement_history self' = enhancement_history self ++ added /\
    calls w' = calls w ++ placed /\
    (length added <= 1)%nat /\
    (length placed <= 1)%nat /\
    Forall (fun c => call_provider c = llm_provider self) placed /\
    (forall record,
       added = [record] ->
       exists c,
         placed = [c] /\
         generate_response env (calls w) c = Ok (enhanced_prompt record) /\
         result = Ok (enhanced_prompt record) /\
         original_prompt record = prompt /\
         effectiveness_rating record = None) /\
    (added = [] -> forall text, result = Ok text -> text = prompt).
Proof.
  pose proof (enhance_prompt_cases env self prompt w) as H.
  unfold enhancement_call in H. cbv zeta.
  destruct (enhancement_rules self !! detect_prompt_type prompt) as [rule|].
  - destruct (format (template rule) prompt) as [meta_prompt|e].
    + destruct (generate_response env (calls w) _) as [text|e] eqn:Hg;
        rewrite H; cbn [fst snd set_history llm_provider enhancement_rules
                          enhancement_history calls].
      * split; [reflexivity|]. split; [reflexivity|].
        eexists _, [_]. split; [reflexivity|]. split; [reflexivity|].
        split; [simpl; lia|]. split; [simpl; lia|].
        split; [repeat constructor|].
        split; [|discriminate].
        intros record Hrecord. injection Hrecord as <-.
        eexists. split; [reflexivity|]. cbn [enhanced_prompt]. now repeat split.
      * split; [reflexivity|]. split; [reflexivity|].
        eexists [], [_]. split; [now rewrite app_nil_r|]. split; [reflexivity|].
        split; [simpl; lia|]. split; [simpl; lia|].
        split; [repeat constructor|].
        split; [discriminate|].
        intros _ text Htext. now injection Htext as <-.
    + rewrite H. cbn [fst snd]. split; [reflexivity|]. split; [reflexivity|].
      exists [], []. rewrite !app_nil_r. repeat split; try (simpl; lia).
      * constructor.
      * discriminate.
      * discriminate.
  - rewrite H. cbn [fst snd]. split; [reflexivity|]. split; [reflexivity|].
    exists [], []. rewrite !app_nil_r. repeat split; try (simpl; lia).
    + constructor.
    + discriminate.
    + discriminate.
Qed.

Lemma record_effectiveness_engineer (self : PromptEngineer) (index rating : Z)
    (w : World) :
  fst (record_effectiveness self index rating w) =
  if (0 <=? index)
  then set_history self
         (alter (set_rating rating) (Z.to_nat index) (enhancement_history self))
  else self.
Proof.
  unfold record_effectiveness.
  destruct (0 <=? index) eqn:H0; cbn [andb]; [|reflexivity].
  destruct (index <? Z.of_nat (length (enhancement_history self))) eqn:H1;
    [reflexivity|].
  cbn [fst]. apply Z.ltb_ge in H1. apply Z.leb_le in H0.
  assert (Hlen : (length (enhancement_history self) <= Z.to_nat index)%nat) by lia.
  assert (Hsame : alter (set_rating rating) (Z.to_nat index) (enhancement_history self)
                  = enhancement_history self).
  { clear -Hlen. revert Hlen. generalize (Z.to_nat index).
    induction (enhancement_history self) as [|r h IH]; intros [|n] Hn;
      simpl in *; try reflexivity; try lia.
    f_equal. apply IH. lia. }
  rewrite Hsame. now destruct self.
Qed.

Lemma record_effectiveness_twice (self : PromptEngineer) (index r1 r2 : Z)
    (w1 w2 w : World) :
  fst (record_effectiveness (fst (record_effectiveness self index r1 w1)) index r2 w2)
  = fst (record_effectiveness self index r2 w).
Proof.
  rewrite !record_effectiveness_engineer.
  destruct (0 <=? index); [|reflexivity].
  unfold set_history. cbn [enhancement_history llm_provider enhancement_rules].
  rewrite list_alter_alter_eq. reflexivity.
Qed.

Lemma record_all_engineers (engineers : list (string * PromptEngineer))
    (index rating : Z) (w : World) :
  fst (record_all engineers index rating w) =
  map (fun entry =>
         (fst entry, fst (record_effectiveness (snd entry) index rating initial_world)))
      engineers.
Proof.
  revert w. induction engineers as [|[k engineer] rest IH]; intros w; [reflexivity|].
  cbn [record_all map fst snd].
  destruct (record_effectiveness engineer index rating w) as [engineer' w1] eqn:H1.
  specialize (IH w1).
  destruct (record_all rest index rating w1) as [rest' w2]. cbn [fst] in *.
  rewrite IH. f_equal. f_equal.
  rewrite !record_effectiveness_engineer.
  apply (f_equal fst) in H1. rewrite record_effectiveness_engineer in H1.
  exact (eq_sym H1).
Qed.

Lemma record_all_calls (engineers : list (string * PromptEngineer))
    (index rating : Z) (w : World) :
  calls (snd (record_all engineers index rating w)) = calls w /\
  ticks (snd (record_all engineers index rating w)) = ticks w.
Proof.
  revert w. induction engineers as [|[k engineer] rest IH]; intros w; [now split|].
  cbn [record_all].
  destruct (record_effectiveness engineer index rating w) as [engineer' w1] eqn:H1.
  specialize (IH w1).
  destruct (record_all rest index rating w1) as [rest' w2]. cbn [snd] in *.
  assert (Hw1 : calls w1 = calls w /\ ticks w1 = ticks w).
  { unfold record_effectiveness in H1.
    destruct ((0 <=? index) && _)%bool; injection H1 as _ <-; now split. }
  destruct IH as [-> ->]. exact Hw1.
Qed.

Lemma assoc_get_map {V} (f : V -> V) (l : list (string * V)) (k : string) :
  assoc_get (map (fun entry => (fst entry, f (snd entry))) l) k = f <$> assoc_get l k.
Proof.
  induction l as [|[k0 v] l IH]; [reflexivity|].
  cbn [map assoc_get fst snd]. destruct (String.eqb k0 k); [reflexivity | exact IH].
Qed.

Lemma provide_feedback_history_of (request : FeedbackRequest) (st : Server)
    (handle : string) :
  history_of (snd (provide_feedback request st)) handle =
  if 0 <=? feedback_index request
  then alter (set_rating (rating request)) (Z.to_nat (feedback_index request))
         (history_of st handle)
  else history_of st handle.
Proof.
  unfold provide_feedback.
  pose proof (record_all_engineers (prompt_engineers st) (feedback_index request)
                (rating request) (world st)) as Heng.
  destruct (record_all _ _ _ _) as [engineers w]. cbn [fst snd] in *. subst engineers.
  unfold history_of. cbn [prompt_engineers].
  rewrite (assoc_get_map
             (fun e => fst (record_effectiveness e (feedback_index request)
                              (rating request) initial_world))).
  destruct (assoc_get (prompt_engineers st) handle) as [engineer|];
    cbn [fmap option_fmap option_map].
  - rewrite record_effectiveness_engineer.
    destruct (0 <=? feedback_index request); reflexivity.
  - destruct (0 <=? feedback_index request); reflexivity.
Qed.

Lemma record_all_logged (engineers : list (string * PromptEngineer))
    (index rating : Z) (w : World) :
  logged (snd (record_all engineers index rating w)) =
  logged w ++ map (fun entry => feedback_record (snd entry) index rating) engineers.
Proof.
  revert w. induction engineers as [|[k engineer] rest IH]; intros w.
  - cbn [record_all snd map]. now rewrite app_nil_r.
  - cbn [record_all map snd].
    destruct (record_effectiveness engineer index rating w) as [engineer' w1] eqn:H1.
    specialize (IH w1).
    destruct (record_all rest index rating w1) as [rest' w2]. cbn [snd] in *.
    rewrite IH. unfold record_effectiveness, feedback_record in *.
    destruct ((0 <=? index) && _)%bool; injection H1 as _ <-;
      cbn [log logged]; now rewrite <- app_assoc.
Qed.

Lemma provide_feedback_record_all (index stars : Z) (st : Server) :
  provide_feedback (mkFeedbackRequest index stars) st =
  (Returned "success",
   mkServer (llm_providers st)
     (fst (record_all (prompt_engineers st) index stars (world st)))
     (snd (record_all (prompt_engineers st) index stars (world st)))).
Proof.
  unfold provide_feedback. cbn [feedback_index rating].
  now destruct (record_all _ _ _ _).
Qed.

(** C3, as amended.  [record_effectiveness] on a history of length [N],
    for any integers [index] and [rating].  When [0 <= index < N], the
    record at [index] gets the rating, whatever its value, nothing else
    in the engineer changes, and an info record with rating and index
    is logged.  For any other index the engineer, its history included, is
    exactly as before and a warning with the index is logged.  That log
    record is the whole report: the method returns nothing in either
    case, and the endpoint [provide_feedback], which hands index and
    rating to every engineer in turn, answers ["success"] for every
    index, also for one that no history has. *)
Theorem record_effectiveness_report (self : PromptEngineer) (index rating : Z)
    (w : World) (st : Server) :
  let self' := fst (record_effectiveness self index rating w) in
  let w' := snd (record_effectiveness self index rating w) in
  let answer := fst (provide_feedback (mkFeedbackRequest index rating) st) in
  let st' := snd (provide_feedback (mkFeedbackRequest index rating) st) in
  (0 <= index < Z.of_nat (length (enhancement_history self)) ->
   self' = set_history self
             (alter (set_rating rating) (Z.to_nat index) (enhancement_history self)) /\
   effectiveness_rating <$> enhancement_history self' !! Z.to_nat index
     = Some (Some rating) /\
   logged w' = logged w ++ [RecordedRating rating index]) /\
  (~ (0 <= index < Z.of_nat (length (enhancement_history self))) ->
   self' = self /\
   logged w' = logged w ++ [InvalidEnhancementIndex index]) /\
  answer = Returned "success" /\
  (forall handle engineer,
     assoc_get (prompt_engineers st) handle = Some engineer ->
     assoc_get (prompt_engineers st') handle =
     Some (fst (record_effectiveness engineer index rating w))) /\
  logged (world st') =
    logged (world st) ++
    map (fun entry => feedback_record (snd entry) index rating) (prompt_engineers st).
Proof.
  cbv zeta. split; [|split; [|split; [|split]]].
  - intros H. rewrite (record_effectiveness_in_range _ _ _ _ H). cbn [fst snd].
    split; [reflexivity|]. split; [|reflexivity].
    cbn [set_history enhancement_history]. rewrite list_lookup_alter_eq.
    destruct (lookup_lt_is_Some_2 (enhancement_history self) (Z.to_nat index))
      as [r Hr]; [lia|].
    now rewrite Hr.
  - intros H. rewrite (record_effectiveness_out_of_range _ _ _ _ H). now split.
  - apply provide_feedback_status.
  - intros handle engineer Hget. rewrite provide_feedback_record_all.
    cbn [snd prompt_engineers]. rewrite record_all_engineers.
    rewrite (assoc_get_map
               (fun e => fst (record_effectiveness e index rating initial_world))).
    rewrite Hget. cbn [fmap option_fmap option_map]. f_equal.
    now rewrite !record_effectiveness_engineer.
  - rewrite provide_feedback_record_all. cbn [snd world].
    apply record_all_logged.
Qed.

Lemma record_effectiveness_report_witness :
  (fst (record_effectiveness scenario_engineer 0 5 initial_world)
     = set_history scenario_engineer
         (alter (set_rating 5) (Z.to_nat 0) (enhancement_history scenario_engineer)) /\
   effectiveness_rating <$>
     enhancement_history (fst (record_effectiveness scenario_engineer 0 5 initial_world))
       !! Z.to_nat 0 = Some (Some 5) /\
   logged (snd (record_effectiveness scenario_engineer 0 5 initial_world))
     = logged initial_world ++ [RecordedRating 5 0]) /\
  (fst (record_effectiveness scenario_engineer 99 5 initial_world) = scenario_engineer /\
   logged (snd (record_effectiveness scenario_engineer 99 5 initial_world))
     = logged initial_world ++ [InvalidEnhancementIndex 99]) /\
  enhancement_history (fst (record_effectiveness scenario_engineer 0 5 initial_world))
    = [mkEnhancement "debug this function" "Fixed prompt text" 0 (Some 5)] /\
  history_of (snd (provide_feedback (mkFeedbackRequest 0 5) after_debug_request))
    "openai_default"
  = [mkEnhancement "debug this function" "answer 0" 0 (Some 5)].
Proof.
  split; [|split; [|split]].
  - apply (record_effectiveness_report scenario_engineer 0 5 initial_world
             initial_server).
    simpl. lia.
  - apply (record_effectiveness_report scenario_engineer 99 5 initial_world
             initial_server).
    simpl. lia.
  - reflexivity.
  - reflexivity.
Defined.

(** The scenario of the specification, on the server that has handled
    the request ["debug this function"]: feedback on the index 99, which
    no history has, is answered ["success"], the same answer as for the
    index 0; the engineers are as before and the log has one more
    record, the warning. *)
Lemma provide_feedback_invalid_index_success :
  fst (provide_feedback (mkFeedbackRequest 99 5) after_debug_request)
    = Returned "success" /\
  fst (provide_feedback (mkFeedbackRequest 99 5) after_debug_request)
    = fst (provide_feedback (mkFeedbackRequest 0 5) after_debug_request) /\
  length (history_of after_debug_request "openai_default") = 1%nat /\
  prompt_engineers (snd (provide_feedback (mkFeedbackRequest 99 5) after_debug_request))
    = prompt_engineers after_debug_request /\
  logged (world (snd (provide_feedback (mkFeedbackRequest 99 5) after_debug_request)))
    = logged (world after_debug_request) ++ [InvalidEnhancementIndex 99].
Proof. vm_compute. repeat split. Qed.

(** X10.  [provide_feedback] reaches every engineer: under each handle
    the record at the index, if the index is not negative and the
    history is that long, gets the rating, and nothing else changes in
    any history.  The registries keep their keys and no adapter is
    called. *)
Theorem provide_feedback_all_engineers (request : FeedbackRequest) (st : Server) :
  let st' := snd (provide_feedback request st) in
  map fst (prompt_engineers st') = map fst (prompt_engineers st) /\
  llm_providers st' = llm_providers st /\
  calls (world st') = calls (world st) /\
  forall handle,
    history_of st' handle =
    if 0 <=? feedback_index request
    then alter (set_rating (rating request)) (Z.to_nat (feedback_index request))
           (history_of st handle)
    else history_of st handle.
Proof.
  cbv zeta. split; [|split; [|split]].
  - unfold provide_feedback.
    pose proof (record_all_engineers (prompt_engineers st) (feedback_index request)
                  (rating request) (world st)) as Heng.
    destruct (record_all _ _ _ _) as [engineers w]. cbn [fst snd] in *. subst engineers.
    cbn [prompt_engineers]. rewrite map_map. reflexivity.
  - unfold provide_feedback. destruct (record_all _ _ _ _). reflexivity.
  - unfold provide_feedback.
    pose proof (record_all_calls (prompt_engineers st) (feedback_index request)
                  (rating request) (world st)) as [Hcalls _].
    destruct (record_all _ _ _ _). exact Hcalls.
  - apply provide_feedback_history_of.
Qed.

(** X11.  Of two feedbacks on the same index the later one wins: the
    engineers are as if only the second had been given. *)
Theorem provide_feedback_last_write_wins (first second : FeedbackRequest) (st : Server) :
  feedback_index first = feedback_index second ->
  prompt_engineers (snd (provide_feedback second (snd (provide_feedback first st))))
  = prompt_engineers (snd (provide_feedback second st)).
Proof.
  intros Hindex. unfold provide_feedback.
  pose proof (record_all_engineers (prompt_engineers st) (feedback_index first)
                (rating first) (world st)) as H1.
  destruct (record_all (prompt_engineers st) (feedback_index first) _ _) as [e1 w1].
  cbn [fst snd prompt_engineers world] in *.
  pose proof (record_all_engineers e1 (feedback_index second) (rating second) w1) as H2.
  destruct (record_all e1 _ _ _) as [e2 w2].
  pose proof (record_all_engineers (prompt_engineers st) (feedback_index second)
                (rating second) (world st)) as H3.
  destruct (record_all (prompt_engineers st) (feedback_index second) _ _) as [e3 w3].
  cbn [fst snd prompt_engineers] in *. subst e1 e2 e3.
  rewrite map_map. apply map_ext. intros [k engineer]. cbn [fst snd]. f_equal.
  rewrite Hindex. apply record_effectiveness_twice.
Qed.

Lemma provide_feedback_last_write_wins_witness :
  let st := mkServer ∅ [("openai_default", three_records)] initial_world in
  prompt_engineers
    (snd (provide_feedback (mkFeedbackRequest 1 5)
            (snd (provide_feedback (mkFeedbackRequest 1 3) st))))
  = prompt_engineers (snd (provide_feedback (mkFeedbackRequest 1 5) st)).
Proof.
  intros st.
  apply (provide_feedback_last_write_wins (mkFeedbackRequest 1 3)
           (mkFeedbackRequest 1 5) st).
  reflexivity.
Defined.

(* ================================================================== *)
(** * More on the provider registry                                    *)
(* ================================================================== *)

Lemma get_or_create_provider_registered (env : Env) (name : string) (key : Any)
    (model : option string) (st st1 : Server) (provider_id : string)
    (p : LLMProvider) :
  get_or_create_provider env name key model st = (Ok (provider_id, p), st1) ->
  provider_id = provider_key_of name model /\
  llm_providers st1 !! provider_id = Some p.
Proof.
  unfold get_or_create_provider.
  destruct (llm_providers st !! provider_key_of name model) as [q|] eqn:Hq.
  - intros H. injection H as <- <- <-. now split.
  - destruct (connector_class name); [|discriminate].
    destruct (new_connector env _ key model); [|discriminate].
    intros H. injection H as <- <- <-. split; [reflexivity|].
    cbn [llm_providers]. apply lookup_insert_eq.
Qed.

(** X12.  Providers are cached by key alone.  Once a provider exists,
    every later lookup whose name and model give the same key gets that
    very provider and changes nothing, whatever API key it brings; the
    key does not tell apart no model, the empty model and the model
    ["default"]. *)
Theorem get_or_create_provider_cached (env : Env) (name : string) (key : Any)
    (model : option string) (st st1 : Server) (provider_id : string)
    (p : LLMProvider) :
  get_or_create_provider env name key model st = (Ok (provider_id, p), st1) ->
  forall (name' : string) (key' : Any) (model' : option string),
    provider_key_of name' model' = provider_key_of name model ->
    get_or_create_provider env name' key' model' st1 = (Ok (provider_id, p), st1).
Proof.
  intros H name' key' model' Hkey.
  apply get_or_create_provider_registered in H as [-> Hp].
  unfold get_or_create_provider. now rewrite Hkey, Hp.
Qed.

Lemma get_or_create_provider_cached_witness :
  let first :=
    get_or_create_provider echo_env "openai" (AStr "sk-first") None initial_server in
  fst first = Ok ("openai_default", mkProvider OpenAIConnector (AStr "sk-first") None) /\
  get_or_create_provider echo_env "openai" (AStr "sk-second") (Some "default")
    (snd first)
  = (Ok ("openai_default", mkProvider OpenAIConnector (AStr "sk-first") None),
     snd first).
Proof.
  intros first. split; [reflexivity|].
  apply (get_or_create_provider_cached echo_env "openai" (AStr "sk-first") None
           initial_server (snd first)).
  - reflexivity.
  - reflexivity.
Defined.

(** X13.  A provider name that is none of openai, anthropic and
    huggingface (in any case of letters), with nothing cached under its
    key: [process_prompt] raises the HTTP error 500 whose detail names
    the provider, logs it, and leaves the registries and the adapter
    alone. *)
Theorem process_prompt_unsupported_provider (env : Env) (request : PromptRequest)
    (st : Server) :
  llm_providers st !! provider_key_of (provider request) (request_model request) = None ->
  connector_class (provider request) = None ->
  process_prompt env request st =
  (HTTPException 500 ("Unsupported provider: " +:+ provider request),
   set_world st
     (log [ErrorProcessing
             (mkException "ValueError" ("Unsupported provider: " +:+ provider request))]
          (world st))).
Proof.
  intros Hcache Hclass.
  pose proof (process_prompt_cases env request st) as H.
  unfold process_setup in H. unfold_M.
  unfold get_or_create_provider in H. rewrite Hcache, Hclass in H. exact H.
Qed.

Lemma process_prompt_unsupported_provider_witness :
  fst (process_prompt echo_env
         (mkPromptRequest "hello" "gemini" None ∅ false) initial_server)
  = HTTPException 500 "Unsupported provider: gemini".
Proof.
  rewrite (process_prompt_unsupported_provider echo_env
             (mkPromptRequest "hello" "gemini" None ∅ false) initial_server).
  - reflexivity.
  - reflexivity.
  - reflexivity.
Defined.

Lemma new_connector_spec (env : Env) (cls : ConnectorClass) (key : Any)
    (model : option string) :
  new_connector env cls key model =
  if truthy key then Ok (mkProvider cls key model)
  else match getenv env (api_key_variable cls) with
       | Some v =>
           if String.eqb v "" then Raise (mkException "ValueError" (api_key_required cls))
           else Ok (mkProvider cls (AStr v) model)
       | None => Raise (mkException "ValueError" (api_key_required cls))
       end.
Proof.
  unfold new_connector, api_key_or_env.
  destruct cls; cbn [api_key_variable api_key_required];
    (destruct (truthy key) eqn:Hk; [now rewrite Hk|]);
    (match goal with
     | |- context [getenv env ?name] => destruct (getenv env name) as [v|]
     end; [|reflexivity]);
    cbn [truthy]; destruct (String.eqb v ""); reflexivity.
Qed.

(** X14.  A supported provider that is not cached yet, a request whose
    options hold no usable [api_key] (absent, null, empty, false or
    zero), and an environment variable of the connector that is unset or
    empty: [process_prompt] raises the HTTP error 500 with the
    connector's message, registers nothing and calls no adapter. *)
Theorem process_prompt_missing_api_key (env : Env) (request : PromptRequest)
    (st : Server) (cls : ConnectorClass) :
  llm_providers st !! provider_key_of (provider request) (request_model request) = None ->
  connector_class (provider request) = Some cls ->
  truthy (default ANone (options request !! "api_key")) = false ->
  getenv env (api_key_variable cls) = None \/
  getenv env (api_key_variable cls) = Some "" ->
  process_prompt env request st =
  (HTTPException 500 (api_key_required cls),
   set_world st
     (log [ErrorProcessing (mkException "ValueError" (api_key_required cls))]
          (world st))).
Proof.
  intros Hcache Hclass Hkey Henv.
  pose proof (process_prompt_cases env request st) as H.
  unfold process_setup in H. unfold_M.
  unfold get_or_create_provider in H.
  rewrite Hcache, Hclass, new_connector_spec, Hkey in H.
  destruct Henv as [Henv|Henv]; rewrite Henv in H; exact H.
Qed.

Lemma process_prompt_missing_api_key_witness :
  fst (process_prompt echo_env
         (mkPromptRequest "hello" "Anthropic" None {[ "api_key" := AStr "" ]} false)
         initial_server)
  = HTTPException 500 "Anthropic API key is required".
Proof.
  rewrite (process_prompt_missing_api_key echo_env
             (mkPromptRequest "hello" "Anthropic" None {[ "api_key" := AStr "" ]} false)
             initial_server AnthropicConnector).
  - reflexivity.
  - reflexivity.
  - reflexivity.
  - reflexivity.
  - left. reflexivity.
Defined.

(** X15.  Where the API key of a new provider comes from: a usable
    [api_key] of the request wins over the environment; the variable of
    the connector is read only without one.  The provider is registered
    under its key and nothing else changes. *)
Theorem get_or_create_provider_new (env : Env) (name : string) (key : Any)
    (model : option string) (st : Server) (cls : ConnectorClass) :
  llm_providers st !! provider_key_of name model = None ->
  connector_class name = Some cls ->
  (truthy key = true ->
   get_or_create_provider env name key model st =
   (Ok (provider_key_of name model, mkProvider cls key model),
    mkServer (<[provider_key_of name model := mkProvider cls key model]>
                (llm_providers st))
             (prompt_engineers st) (world st))) /\
  (forall v, truthy key = false ->
     getenv env (api_key_variable cls) = Some v -> v <> "" ->
     get_or_create_provider env name key model st =
     (Ok (provider_key_of name model, mkProvider cls (AStr v) model),
      mkServer (<[provider_key_of name model := mkProvider cls (AStr v) model]>
                  (llm_providers st))
               (prompt_engineers st) (world st))).
Proof.
  intros Hcache Hclass. unfold get_or_create_provider.
  rewrite Hcache, Hclass, new_connector_spec. split.
  - intros Hk. now rewrite Hk.
  - intros v Hk Henv Hv. rewrite Hk, Henv.
    destruct (String.eqb_spec v ""); [now contradiction Hv | reflexivity].
Qed.

Lemma get_or_create_provider_new_witness :
  let env := mkEnv (fun name => if String.eqb name "OPENAI_API_KEY"
                                then Some "sk-env" else None)
                   FileNotFound (fun _ _ => Ok "ok") (fun n => Z.of_nat n) in
  fst (get_or_create_provider env "OpenAI" (AStr "sk-request") (Some "gpt-4o")
         initial_server)
  = Ok ("OpenAI_gpt-4o",
        mkProvider OpenAIConnector (AStr "sk-request") (Some "gpt-4o")) /\
  fst (get_or_create_provider env "OpenAI" ANone (Some "gpt-4o") initial_server)
  = Ok ("OpenAI_gpt-4o", mkProvider OpenAIConnector (AStr "sk-env") (Some "gpt-4o")).
Proof.
  intros env. split.
  - rewrite (proj1 (get_or_create_provider_new env "OpenAI" (AStr "sk-request")
                      (Some "gpt-4o") initial_server OpenAIConnector
                      eq_refl eq_refl) eq_refl).
    reflexivity.
  - rewrite (proj2 (get_or_create_provider_new env "OpenAI" ANone
                      (Some "gpt-4o") initial_server OpenAIConnector
                      eq_refl eq_refl) "sk-env" eq_refl eq_refl).
    + reflexivity.
    + discriminate.
Defined.

Lemma lower_ascii_underscore (c : ascii) :
  Ascii.eqb (lower_ascii c) "_" = Ascii.eqb c "_".
Proof. destruct c as [[] [] [] [] [] [] [] []]; reflexivity. Qed.

Lemma has_char_lower (s : string) : has_char "_" (lower s) = has_char "_" s.
Proof.
  induction s as [|c s IH]; [reflexivity|].
  cbn [lower has_char]. now rewrite lower_ascii_underscore, IH.
Qed.

Lemma supported_name_no_underscore (name : string) (cls : ConnectorClass) :
  connector_class name = Some cls -> has_char "_" name = false.
Proof.
  unfold connector_class. rewrite <- has_char_lower.
  destruct (String.eqb_spec (lower name) "openai") as [->|_]; [reflexivity|].
  destruct (String.eqb_spec (lower name) "anthropic") as [->|_]; [reflexivity|].
  destruct (String.eqb_spec (lower name) "huggingface") as [->|_]; [reflexivity|].
  discriminate.
Qed.

Lemma split_at_underscore (a a' x x' : string) :
  has_char "_" a = false -> has_char "_" a' = false ->
  a +:+ "_" +:+ x = a' +:+ "_" +:+ x' -> a = a' /\ x = x'.
Proof.
  revert a'. induction a as [|c a IH]; intros [|c' a'] Ha Ha' H.
  - injection H as H. now split.
  - change (String "_" x = String c' (a' +:+ "_" +:+ x')) in H.
    injection H as <- _. simpl in Ha'. discriminate Ha'.
  - change (String c (a +:+ "_" +:+ x) = String "_" x') in H.
    injection H as -> _. simpl in Ha. discriminate Ha.
  - change (String c (a +:+ "_" +:+ x) = String c' (a' +:+ "_" +:+ x')) in H.
    injection H as <- H. simpl in Ha, Ha'.
    apply orb_false_iff in Ha as [_ Ha]. apply orb_false_iff in Ha' as [_ Ha'].
    destruct (IH a' Ha Ha' H) as [-> ->]. now split.
Qed.

(** X16.  Two requests share a provider key, and with it the provider
    and its prompt engineer, only if they spell the provider name the
    same way, letter case included, and name the same model after
    [model or 'default']. *)
Theorem provider_key_of_injective (name name' : string) (model model' : option string)
    (cls cls' : ConnectorClass) :
  connector_class name = Some cls ->
  connector_class name' = Some cls' ->
  provider_key_of name model = provider_key_of name' model' ->
  name = name' /\ model_or_default model = model_or_default model'.
Proof.
  intros Hc Hc' H.
  apply (split_at_underscore name name'
           (model_or_default model) (model_or_default model'));
    eauto using supported_name_no_underscore.
Qed.

Lemma provider_key_of_injective_witness :
  "openai" = "openai" /\
  model_or_default None = model_or_default (Some "default").
Proof.
  apply (provider_key_of_injective "openai" "openai" None (Some "default")
           OpenAIConnector OpenAIConnector).
  - reflexivity.
  - reflexivity.
  - reflexivity.
Defined.

(* ================================================================== *)
(** * More on processing a request                                     *)
(* ================================================================== *)

Lemma enhance_prompt_history_extends (env : Env) (self : PromptEngineer)
    (prompt : string) (w : World) :
  exists added,
    enhancement_history (snd (fst (enhance_prompt env self prompt w)))
      = enhancement_history self ++ added /\
    (length added <= 1)%nat.
Proof.
  pose proof (enhance_prompt_cases env self prompt w) as H.
  destruct (enhancement_call self prompt) as [c|e].
  - destruct (generate_response env (calls w) c) as [text|e]; rewrite H; cbn [fst snd].
    + eexists. split; [reflexivity | simpl; lia].
    + exists []. split; [now rewrite app_nil_r | simpl; lia].
  - rewrite H. exists []. split; [now rewrite app_nil_r | simpl; lia].
Qed.

Lemma process_setup_detail (env : Env) (request : PromptRequest) (st : Server) :
  match process_setup env request st with
  | (Ok (handle, p), st0) =>
      handle = provider_key_of (provider request) (request_model request) /\
      calls (world st0) = calls (world st) /\
      ticks (world st0) = ticks (world st) /\
      (prompt_engineers st0 = prompt_engineers st /\
       is_Some (assoc_get (prompt_engineers st) handle) \/
       assoc_get (prompt_engineers st) handle = None /\
       exists self,
         prompt_engineers st0 = prompt_engineers st ++ [(handle, self)] /\
         enhancement_history self = [])
  | (Raise e, st0) => st0 = st
  end.
Proof.
  unfold process_setup. unfold_M.
  pose proof (get_or_create_provider_spec env (provider request)
                (default ANone (options request !! "api_key"))
                (request_model request) st) as H.
  destruct (get_or_create_provider _ _ _ _ st) as [[[provider_id p]|e] st1];
    [|exact H].
  destruct H as (-> & Heng & Hw).
  unfold get_or_create_prompt_engineer. rewrite Heng.
  destruct (assoc_get (prompt_engineers st) _) as [engineer|] eqn:Hget.
  - split; [reflexivity|]. rewrite Hw. split; [reflexivity|]. split; [reflexivity|].
    left. split; [exact Heng | eauto].
  - unfold new_engineer.
    destruct (load_enhancement_rules (rules_file env)) as [rules records].
    split; [reflexivity|]. cbn [world prompt_engineers log calls ticks]. rewrite Hw.
    split; [reflexivity|]. split; [reflexivity|].
    right. split; [exact Hget|]. eexists. split; [reflexivity|]. reflexivity.
Qed.

(** What [process_prompt] does to the list of engineers: it may add one
    with an empty history at the end, under the handle of the request,
    and it may then replace the engineer under that handle by one
    whose history has at most one more record. *)
Lemma process_prompt_engineers (env : Env) (request : PromptRequest) (st : Server) :
  let handle := provider_key_of (provider request) (request_model request) in
  exists engineers0,
    (engineers0 = prompt_engineers st \/
     assoc_get (prompt_engineers st) handle = None /\
     exists self,
       engineers0 = prompt_engineers st ++ [(handle, self)] /\
       enhancement_history self = []) /\
    (prompt_engineers (snd (process_prompt env request st)) = engineers0 \/
     exists self self' added,
       assoc_get engineers0 handle = Some self /\
       prompt_engineers (snd (process_prompt env request st))
         = assoc_set engineers0 handle self' /\
       enhancement_history self' = enhancement_history self ++ added /\
       (length added <= 1)%nat).
Proof.
  intros handle.
  pose proof (process_prompt_cases env request st) as Hcases.
  pose proof (process_setup_detail env request st) as Hsetup.
  destruct (process_setup env request st) as [[[h p]|e] st0].
  - destruct Hsetup as (-> & _ & _ & Hengineers). fold handle in Hengineers, Hcases.
    exists (prompt_engineers st0). split.
    { destruct Hengineers as [[H _]|[Hnone [self [H Hempty]]]]; [now left|].
      right. split; [exact Hnone|]. exists self. now split. }
    assert (Hself : is_Some (assoc_get (prompt_engineers st0) handle)).
    { destruct Hengineers as [[-> H]|[Hnone [self [-> _]]]]; [exact H|].
      rewrite assoc_get_app, Hnone, String.eqb_refl. eauto. }
    destruct Hself as [self Hself].
    destruct (bypass_enhancement request) eqn:Hbypass.
    + left. unfold process_enhance in Hcases. rewrite Hbypass in Hcases.
      unfold_M. cbv zeta in Hcases.
      destruct (generate_response env _ _); now rewrite Hcases.
    + right.
      rewrite (process_enhance_spec env request handle self st0 Hbypass Hself)
        in Hcases.
      destruct (enhance_prompt_history_extends env self (prompt request) (world st0))
        as (added & Hadded & Hlen).
      destruct (enhance_prompt env self (prompt request) (world st0))
        as [[[final_prompt|e] self'] w']; cbv beta iota zeta in Hcases;
        cbn [fst snd] in Hadded; exists self, self', added.
      * match type of Hcases with
        | match ?answer with Ok _ => _ | Raise _ => _ end => destruct answer
        end; rewrite Hcases; now repeat split.
      * rewrite Hcases. now repeat split.
  - subst st0. exists (prompt_engineers st). split; [now left|].
    left. now rewrite Hcases.
Qed.

Lemma assoc_set_keys {V} (l : list (string * V)) (k : string) (v : V) :
  is_Some (assoc_get l k) -> map fst (assoc_set l k v) = map fst l.
Proof.
  induction l as [|[k0 v0] l IH]; simpl; intros H; [now destruct H|].
  destruct (String.eqb k0 k); [reflexivity|]. cbn [map fst]. now rewrite IH.
Qed.

(** X17.  Histories and the list of engineers only grow.  After any
    request, every history is the one before with at most one record
    added at its end, and the handles are those before, in the same
    order, with at most one added at the end. *)
Theorem process_prompt_append_only (env : Env) (request : PromptRequest) (st : Server) :
  let st' := snd (process_prompt env request st) in
  (forall handle,
     exists added,
       history_of st' handle = history_of st handle ++ added /\
       (length added <= 1)%nat) /\
  (exists new,
     map fst (prompt_engineers st') = map fst (prompt_engineers st) ++ new /\
     (length new <= 1)%nat).
Proof.
  cbv zeta.
  destruct (process_prompt_engineers env request st)
    as (engineers0 & Hfirst & Hsecond).
  set (handle := provider_key_of (provider request) (request_model request)) in *.
  assert (Hhist0 : forall k,
            match assoc_get engineers0 k with
            | Some engineer => enhancement_history engineer
            | None => []
            end = history_of st k).
  { intros k. unfold history_of.
    destruct Hfirst as [->|[Hnone [self [-> Hempty]]]]; [reflexivity|].
    rewrite assoc_get_app.
    destruct (assoc_get (prompt_engineers st) k); [reflexivity|].
    destruct (String.eqb handle k); [exact Hempty | reflexivity]. }
  assert (Hkeys0 : exists new,
            map fst engineers0 = map fst (prompt_engineers st) ++ new /\
            (length new <= 1)%nat).
  { destruct Hfirst as [->|[_ [self [-> _]]]].
    - exists []. split; [now rewrite app_nil_r | simpl; lia].
    - exists [handle]. split; [now rewrite map_app | simpl; lia]. }
  destruct Hsecond as [Hsame|(self & self' & added & Hself & Hset & Hadded & Hlen)].
  - split.
    + intros k. exists []. rewrite app_nil_r. split; [|simpl; lia].
      unfold history_of at 1. rewrite Hsame. apply Hhist0.
    + now rewrite Hsame.
  - split.
    + intros k. unfold history_of at 1. rewrite Hset.
      rewrite assoc_get_set by eauto.
      destruct (String.eqb_spec handle k) as [<-|_].
      * exists added. split; [|exact Hlen].
        rewrite Hadded. f_equal. rewrite <- (Hhist0 handle). now rewrite Hself.
      * exists []. rewrite app_nil_r. split; [apply Hhist0 | simpl; lia].
    + rewrite Hset, assoc_set_keys by eauto. exact Hkeys0.
Qed.



(** A returned response of a request that is not bypassed, unfolded:
    the engineer it was served by, the call of the enhancement, and what
    followed from the adapter's answer to it. *)
Lemma process_prompt_returned (env : Env) (request : PromptRequest) (st st' : Server)
    (r : PromptResponse) :
  bypass_enhancement request = false ->
  process_prompt env request st = (Returned r, st') ->
  let handle := provider_key_of (provider request) (request_model request) in
  exists (p : LLMProvider) (c : Call) (final_prompt : string)
         (added : list PromptEnhancement),
    let c2 := mkCall p final_prompt (options request) in
    (exists self, enhancement_call self (prompt request) = Ok c) /\
    calls (world st') = calls (world st) ++ [c; c2] /\
    generate_response env (calls (world st) ++ [c]) c2 = Ok (response r) /\
    history_of st' handle = history_of st handle ++ added /\
    enhancement_index r = Some (Z.of_nat (length (history_of st' handle)) - 1) /\
    match generate_response env (calls (world st)) c with
    | Ok text =>
        final_prompt = text /\
        added = [mkEnhancement (prompt request) text
                   (time_time env (ticks (world st))) None]
    | Raise e => final_prompt = prompt request /\ added = []
    end.
Proof.
  intros Hbypass Hret handle.
  pose proof (process_prompt_cases env request st) as Hcases.
  pose proof (process_setup_detail env request st) as Hsetup.
  destruct (process_setup env request st) as [[[h p]|e] st0];
    [|rewrite Hcases in Hret; discriminate Hret].
  destruct Hsetup as (-> & Hcalls & Hticks & Hengineers).
  fold handle in Hengineers, Hcases.
  assert (Hself : exists self,
            assoc_get (prompt_engineers st0) handle = Some self /\
            enhancement_history self = history_of st handle).
  { unfold history_of.
    destruct Hengineers as [[-> [self H]]|[Hnone [self [-> Hempty]]]].
    - exists self. now rewrite H.
    - exists self. rewrite assoc_get_app, Hnone, String.eqb_refl. now split. }
  destruct Hself as (self & Hself & Hhistory).
  rewrite (process_enhance_spec env request handle self st0 Hbypass Hself) in Hcases.
  pose proof (enhance_prompt_cases env self (prompt request) (world st0)) as Henh.
  destruct (enhancement_call self (prompt request)) as [c|e] eqn:Hcall;
    [|rewrite Henh in Hcases; cbv beta iota zeta in Hcases;
      rewrite Hcases in Hret; discriminate Hret].
  rewrite Hcalls, Hticks in Henh.
  destruct (generate_response env (calls (world st)) c) as [text|e] eqn:Hg;
    rewrite Henh in Hcases; cbv beta iota zeta in Hcases;
    cbn [world calls] in Hcases;
    match type of Hcases with
    | match ?answer with Ok _ => _ | Raise _ => _ end =>
        destruct answer as [llm_response|e'] eqn:Hfinal
    end;
    rewrite Hcases in Hret; try discriminate Hret;
    injection Hret as <- <-.
  - exists p, c, text,
      [mkEnhancement (prompt request) text (time_time env (ticks (world st))) None].
    cbv zeta. cbn [set_world world calls response enhancement_index].
    change (history_of (set_world ?s ?w) handle) with (history_of s handle).
    rewrite history_of_set, String.eqb_refl by eauto.
    cbn [set_history enhancement_history]. rewrite Hhistory, Hg.
    split; [eauto|]. split; [now rewrite <- app_assoc|]. now repeat split.
  - exists p, c, (prompt request), [].
    cbv zeta. cbn [set_world world calls response enhancement_index].
    change (history_of (set_world ?s ?w) handle) with (history_of s handle).
    rewrite history_of_set, String.eqb_refl by eauto.
    rewrite Hhistory, Hg, app_nil_r.
    split; [eauto|]. split; [now rewrite <- app_assoc|]. now repeat split.
Qed.

(** The same response, seen from the registry: the engineer that is
    held under the handle afterwards is the one whose rule and provider
    made the first call. *)
Lemma process_prompt_returned_engineer (env : Env) (request : PromptRequest)
    (st st' : Server) (r : PromptResponse) :
  bypass_enhancement request = false ->
  process_prompt env request st = (Returned r, st') ->
  let handle := provider_key_of (provider request) (request_model request) in
  exists (engineer : PromptEngineer) (c : Call) (final_prompt : string)
         (p : LLMProvider),
    assoc_get (prompt_engineers st') handle = Some engineer /\
    enhancement_call engineer (prompt request) = Ok c /\
    calls (world st') =
      calls (world st) ++ [c; mkCall p final_prompt (options request)].
Proof.
  intros Hbypass Hret handle.
  pose proof (process_prompt_cases env request st) as Hcases.
  pose proof (process_setup_detail env request st) as Hsetup.
  destruct (process_setup env request st) as [[[h p]|e] st0];
    [|rewrite Hcases in Hret; discriminate Hret].
  destruct Hsetup as (-> & Hcalls & Hticks & Hengineers).
  fold handle in Hengineers, Hcases.
  assert (Hself : exists self, assoc_get (prompt_engineers st0) handle = Some self).
  { destruct Hengineers as [[-> [self H]]|[Hnone [self [-> Hempty]]]].
    - now exists self.
    - exists self. now rewrite assoc_get_app, Hnone, String.eqb_refl. }
  destruct Hself as (self & Hself).
  rewrite (process_enhance_spec env request handle self st0 Hbypass Hself) in Hcases.
  pose proof (enhance_prompt_cases env self (prompt request) (world st0)) as Henh.
  destruct (enhancement_call self (prompt request)) as [c|e] eqn:Hcall;
    [|rewrite Henh in Hcases; cbv beta iota zeta in Hcases;
      rewrite Hcases in Hret; discriminate Hret].
  rewrite Hcalls, Hticks in Henh.
  destruct (generate_response env (calls (world st)) c) as [text|e] eqn:Hg;
    rewrite Henh in Hcases; cbv beta iota zeta in Hcases;
    cbn [world calls] in Hcases;
    match type of Hcases with
    | match ?answer with Ok _ => _ | Raise _ => _ end =>
        destruct answer as [llm_response|e'] eqn:Hfinal
    end;
    rewrite Hcases in Hret; try discriminate Hret;
    injection Hret as <- <-.
  - eexists _, c, text, p.
    cbn [set_world prompt_engineers world calls].
    rewrite assoc_get_set, String.eqb_refl by eauto.
    split; [reflexivity|]. split; [exact Hcall|]. now rewrite <- app_assoc.
  - eexists _, c, (prompt request), p.
    cbn [set_world prompt_engineers world calls].
    rewrite assoc_get_set, String.eqb_refl by eauto.
    split; [reflexivity|]. split; [exact Hcall|]. now rewrite <- app_assoc.
Qed.

(** X19.  After a successful enhancement the returned index is that of
    the record of this very request.  If the first of the two adapter
    calls of a returned response was answered with [text], the index is
    the length of the history before the request, and the history is
    the one before followed by one record, unrated, with the prompt of
    the request and [text]. *)
Theorem process_prompt_success_index (env : Env) (request : PromptRequest)
    (st st' : Server) (r : PromptResponse) (c1 c2 : Call) (text : string) :
  bypass_enhancement request = false ->
  process_prompt env request st = (Returned r, st') ->
  calls (world st') = calls (world st) ++ [c1; c2] ->
  generate_response env (calls (world st)) c1 = Ok text ->
  let handle := provider_key_of (provider request) (request_model request) in
  enhancement_index r = Some (Z.of_nat (length (history_of st handle))) /\
  exists record,
    history_of st' handle = history_of st handle ++ [record] /\
    original_prompt record = prompt request /\
    enhanced_prompt record = text /\
    effectiveness_rating record = None /\
    call_prompt c2 = text.
Proof.
  intros Hbypass Hret Hcalls Hg handle.
  destruct (process_prompt_returned env request st st' r Hbypass Hret)
    as (p & c & final_prompt & added & _ & Hcalls' & _ & Hhist & Hindex & Hcase).
  fold handle in Hhist, Hindex. rewrite Hcalls in Hcalls'. cbv zeta in Hcalls'.
  apply app_inv_head in Hcalls'. injection Hcalls' as -> ->.
  rewrite Hg in Hcase. destruct Hcase as [-> ->].
  split.
  - rewrite Hindex, Hhist, length_app. cbn [length]. f_equal. lia.
  - eexists. split; [exact Hhist|]. now repeat split.
Qed.

Lemma process_prompt_success_index_witness :
  fst (process_prompt third_call_fails_env debug_request initial_server)
  = Returned (mkPromptResponse "answer 1" (Some 0)) /\
  enhancement_index (mkPromptResponse "answer 1" (Some 0))
  = Some (Z.of_nat (length (history_of initial_server "openai_default"))) /\
  history_of after_debug_request "openai_default"
  = [mkEnhancement "debug this function" "answer 0" 0 None].
Proof.
  split; [reflexivity|]. split; [|reflexivity].
  eapply proj1.
  eapply (process_prompt_success_index third_call_fails_env debug_request
            initial_server after_debug_request
            (mkPromptResponse "answer 1" (Some 0))) with (text := "answer 0").
  - reflexivity.
  - vm_compute. reflexivity.
  - vm_compute. reflexivity.
  - vm_compute. reflexivity.
Defined.

(** X20.  The index that comes back with a response after a successful
    enhancement can be used at once: feedback with it rates the record
    of this request and leaves the earlier records of the engineer as
    they were.  The endpoint applies the same index to every engineer,
    so under every other handle the record at that index, if there is
    one, gets the rating too. *)
Theorem feedback_on_returned_index (env : Env) (request : PromptRequest)
    (st st' : Server) (r : PromptResponse) (c1 c2 : Call) (text : string)
    (index stars : Z) :
  bypass_enhancement request = false ->
  process_prompt env request st = (Returned r, st') ->
  calls (world st') = calls (world st) ++ [c1; c2] ->
  generate_response env (calls (world st)) c1 = Ok text ->
  enhancement_index r = Some index ->
  let handle := provider_key_of (provider request) (request_model request) in
  let st'' := snd (provide_feedback (mkFeedbackRequest index stars) st') in
  index = Z.of_nat (length (history_of st handle)) /\
  (exists record,
     history_of st'' handle = history_of st handle ++ [record] /\
     original_prompt record = prompt request /\
     enhanced_prompt record = text /\
     effectiveness_rating record = Some stars) /\
  (forall other,
     history_of st'' other =
     alter (set_rating stars) (Z.to_nat index) (history_of st' other)).
Proof.
  intros Hbypass Hret Hcalls Hg Hr handle st''. subst st''.
  destruct (process_prompt_returned env request st st' r Hbypass Hret)
    as (p & c & final_prompt & added & _ & Hcalls' & _ & Hhist & Hindex & Hcase).
  fold handle in Hhist, Hindex. rewrite Hcalls in Hcalls'. cbv zeta in Hcalls'.
  apply app_inv_head in Hcalls'. injection Hcalls' as -> ->.
  rewrite Hg in Hcase. destruct Hcase as [-> ->].
  rewrite Hr, Hhist, length_app in Hindex. cbn [length] in Hindex.
  injection Hindex as ->.
  split; [lia|]. split.
  - rewrite provide_feedback_history_of. cbn [feedback_index rating].
    replace (0 <=? _) with true by (symmetry; apply Z.leb_le; lia).
    replace (Z.to_nat _) with (length (history_of st handle) + 0)%nat by lia.
    rewrite Hhist, alter_app_r. cbn [alter list_alter].
    eexists. split; [reflexivity|]. now repeat split.
  - intros other. rewrite provide_feedback_history_of. cbn [feedback_index rating].
    now replace (0 <=? _) with true by (symmetry; apply Z.leb_le; lia).
Qed.

Lemma feedback_on_returned_index_witness :
  let st' := snd (process_prompt constant_env anthropic_request
                    after_openai_request) in
  let st'' := snd (provide_feedback (mkFeedbackRequest 0 4) st') in
  history_of st'' "anthropic_default" = [mkEnhancement "hello" "ok" 1 (Some 4)] /\
  history_of st'' "openai_default"
    = [mkEnhancement "debug this function" "ok" 0 (Some 4)] /\
  (0 = Z.of_nat (length (history_of after_openai_request "anthropic_default")) /\
   (exists record,
      history_of st'' "anthropic_default"
        = history_of after_openai_request "anthropic_default" ++ [record] /\
      original_prompt record = "hello" /\
      enhanced_prompt record = "ok" /\
      effectiveness_rating record = Some 4) /\
   (forall other,
      history_of st'' other =
      alter (set_rating 4) (Z.to_nat 0) (history_of st' other))).
Proof.
  cbv zeta. split; [reflexivity|]. split; [reflexivity|].
  eapply (feedback_on_returned_index constant_env anthropic_request
            after_openai_request
            (snd (process_prompt constant_env anthropic_request
                    after_openai_request))
            (mkPromptResponse "ok" (Some 0))) with (text := "ok").
  - reflexivity.
  - vm_compute. reflexivity.
  - vm_compute. reflexivity.
  - vm_compute. reflexivity.
  - reflexivity.
Defined.

Lemma enhancement_call_shape (self : PromptEngineer) (prompt : string) (c : Call) :
  enhancement_call self prompt = Ok c ->
  exists rule,
    enhancement_rules self !! detect_prompt_type prompt = Some rule /\
    format (template rule) prompt = Ok (call_prompt c) /\
    call_options c = {[ "system_prompt" := AStr (system_prompt rule) ]}.
Proof.
  unfold enhancement_call.
  destruct (enhancement_rules self !! detect_prompt_type prompt) as [rule|];
    [|discriminate].
  destruct (format (template rule) prompt) as [meta_prompt|e] eqn:Hf; [|discriminate].
  intros H. injection H as <-. exists rule. now repeat split.
Qed.

(** X21.  How the prompt travels for a request that is not bypassed and
    gets a response after two adapter calls.  The first call goes to
    the provider of the engineer held under the request's handle; it
    carries the meta-prompt, which is the template of that engineer's
    rule for the detected category with the prompt of the request put
    in, and no option but that rule's system prompt (none of the
    request's options).  The second carries the request's options and,
    as its prompt, the answer to the first call, or the prompt of the
    request if the first call raised; its answer is the response. *)
Theorem process_prompt_data_flow (env : Env) (request : PromptRequest)
    (st st' : Server) (r : PromptResponse) (c1 c2 : Call) :
  bypass_enhancement request = false ->
  process_prompt env request st = (Returned r, st') ->
  calls (world st') = calls (world st) ++ [c1; c2] ->
  let handle := provider_key_of (provider request) (request_model request) in
  exists (engineer : PromptEngineer) (rule : EnhancementRule),
    assoc_get (prompt_engineers st') handle = Some engineer /\
    enhancement_rules engineer !! detect_prompt_type (prompt request) = Some rule /\
    format (template rule) (prompt request) = Ok (call_prompt c1) /\
    call_options c1 = {[ "system_prompt" := AStr (system_prompt rule) ]} /\
    call_provider c1 = llm_provider engineer /\
    call_options c2 = options request /\
    generate_response env (calls (world st) ++ [c1]) c2 = Ok (response r) /\
    (generate_response env (calls (world st)) c1 = Ok (call_prompt c2) \/
     call_prompt c2 = prompt request /\
     is_ok (generate_response env (calls (world st)) c1) = false).
Proof.
  intros Hbypass Hret Hcalls handle.
  destruct (process_prompt_returned env request st st' r Hbypass Hret)
    as (p & c & final_prompt & added & _ & Hcalls' & Hfinal & _ & _ & Hcase).
  destruct (process_prompt_returned_engineer env request st st' r Hbypass Hret)
    as (engineer & c' & final_prompt' & p' & Hengineer & Hcall & Hcalls'').
  fold handle in Hengineer.
  cbv zeta in Hcalls', Hfinal.
  rewrite Hcalls in Hcalls', Hcalls''.
  apply app_inv_head in Hcalls', Hcalls''.
  injection Hcalls' as Hc1 Hc2. injection Hcalls'' as Hc1' _.
  subst c c' c2.
  destruct (enhancement_call_shape engineer (prompt request) c1 Hcall)
    as (rule & Hrule & Hformat & Hoptions).
  exists engineer, rule.
  split; [exact Hengineer|]. split; [exact Hrule|]. split; [exact Hformat|].
  split; [exact Hoptions|].
  split.
  { unfold enhancement_call in Hcall. rewrite Hrule in Hcall.
    destruct (format (template rule) (prompt request)); [|discriminate Hcall].
    now injection Hcall as <-. }
  split; [reflexivity|]. split; [exact Hfinal|]. cbn [call_prompt].
  destruct (generate_response env (calls (world st)) c1) as [text|e];
    destruct Hcase as [-> _]; [now left | now right].
Qed.

Lemma process_prompt_data_flow_witness :
  let st := initial_server in
  let request := hello_request false in
  let st' := snd (process_prompt late_answer_env request st) in
  let r := mkPromptResponse "late answer" (Some (-1)) in
  calls (world st') = [hello_meta_call; hello_final_call] /\
  exists (engineer : PromptEngineer) (rule : EnhancementRule),
    assoc_get (prompt_engineers st')
      (provider_key_of (provider request) (request_model request)) = Some engineer /\
    enhancement_rules engineer !! detect_prompt_type (prompt request) = Some rule /\
    format (template rule) (prompt request) = Ok (call_prompt hello_meta_call) /\
    call_options hello_meta_call = {[ "system_prompt" := AStr (system_prompt rule) ]} /\
    call_provider hello_meta_call = llm_provider engineer /\
    call_options hello_final_call = options request /\
    generate_response late_answer_env (calls (world st) ++ [hello_meta_call])
      hello_final_call = Ok (response r) /\
    (generate_response late_answer_env (calls (world st)) hello_meta_call
       = Ok (call_prompt hello_final_call) \/
     call_prompt hello_final_call = prompt request /\
     is_ok (generate_response late_answer_env (calls (world st)) hello_meta_call)
       = false).
Proof.
  cbv zeta. split; [vm_compute; reflexivity|].
  apply (process_prompt_data_flow late_answer_env (hello_request false)
           initial_server
           (snd (process_prompt late_answer_env (hello_request false) initial_server))
           (mkPromptResponse "late answer" (Some (-1)))
           hello_meta_call hello_final_call).
  - reflexivity.
  - vm_compute. reflexivity.
  - vm_compute. reflexivity.
Defined.

(* ================================================================== *)
(** * Sequences of requests                                            *)
(* ================================================================== *)

Lemma assoc_set_same {V} (l : list (string * V)) (k : string) (v : V) :
  assoc_get l k = Some v -> assoc_set l k v = l.
Proof.
  induction l as [|[k0 v0] l IH]; simpl; [discriminate|].
  destruct (String.eqb k0 k).
  - intros H. now injection H as ->.
  - intros H. now rewrite IH.
Qed.

Lemma process_setup_full (env : Env) (request : PromptRequest) (st : Server) :
  match process_setup env request st with
  | (Ok (handle, p), st0) =>
      handle = provider_key_of (provider request) (request_model request) /\
      calls (world st0) = calls (world st) /\
      ticks (world st0) = ticks (world st) /\
      llm_providers st0 !! handle = Some p /\
      (llm_providers st0 = llm_providers st \/
       llm_providers st !! handle = None /\
       llm_providers st0 = <[handle := p]> (llm_providers st)) /\
      (prompt_engineers st0 = prompt_engineers st /\
       is_Some (assoc_get (prompt_engineers st) handle) \/
       assoc_get (prompt_engineers st) handle = None /\
       prompt_engineers st0 =
         prompt_engineers st ++
         [(handle, mkEngineer p [] (fst (load_enhancement_rules (rules_file env))))])
  | (Raise e, st0) => st0 = st
  end.
Proof.
  unfold process_setup. unfold_M.
  unfold get_or_create_provider.
  set (handle := provider_key_of (provider request) (request_model request)).
  assert (Hengineer : forall providers p,
            providers !! handle = Some p ->
            (providers = llm_providers st \/
             llm_providers st !! handle = None /\
             providers = <[handle := p]> (llm_providers st)) ->
            match
              (let '(r, st0) :=
                 get_or_create_prompt_engineer env handle p
                   (mkServer providers (prompt_engineers st) (world st)) in
               match r with
               | Ok a => (Ok (a, p), st0)
               | Raise e => (Raise e, st0)
               end)
            with
            | (Ok (h, q), st0) =>
                h = handle /\ calls (world st0) = calls (world st) /\
                ticks (world st0) = ticks (world st) /\
                llm_providers st0 !! h = Some q /\
                (llm_providers st0 = llm_providers st \/
                 llm_providers st !! h = None /\
                 llm_providers st0 = <[h := q]> (llm_providers st)) /\
                (prompt_engineers st0 = prompt_engineers st /\
                 is_Some (assoc_get (prompt_engineers st) h) \/
                 assoc_get (prompt_engineers st) h = None /\
                 prompt_engineers st0 =
                   prompt_engineers st ++
                   [(h, mkEngineer q [] (fst (load_enhancement_rules (rules_file env))))])
            | (Raise e, st0) => st0 = st
            end).
  { intros providers p Hp Hproviders. unfold get_or_create_prompt_engineer.
    cbn [prompt_engineers world llm_providers].
    destruct (assoc_get (prompt_engineers st) handle) as [engineer|] eqn:Hget.
    - cbn [llm_providers prompt_engineers world]. repeat split; auto;
        try (left; split; [reflexivity | eauto]).
    - unfold new_engineer.
      destruct (load_enhancement_rules (rules_file env)) as [rules records].
      cbn [llm_providers prompt_engineers world log calls ticks fst].
      repeat split; auto; try (right; split; [assumption | reflexivity]). }
  destruct (llm_providers st !! handle) as [p|] eqn:Hcache.
  - specialize (Hengineer (llm_providers st) p Hcache (or_introl eq_refl)).
    unfold bind in *. cbv beta iota zeta in Hengineer |- *.
    replace (mkServer (llm_providers st) (prompt_engineers st) (world st)) with st
      in Hengineer by now destruct st.
    exact Hengineer.
  - destruct (connector_class (provider request)); [|reflexivity].
    destruct (new_connector env _ _ _) as [p|e]; [|reflexivity].
    apply (Hengineer (<[handle := p]> (llm_providers st)) p).
    + apply lookup_insert_eq.
    + right. now split.
Qed.

(** The state after [process_prompt], whatever its result.  At most one
    provider and one engineer are added, both under the handle of the
    request; then either nothing more happens to the engineers and the
    clock, or the engineer under the handle gets one record, stamped
    with the next reading of the clock. *)
Lemma process_prompt_state (env : Env) (request : PromptRequest) (st : Server) :
  let handle := provider_key_of (provider request) (request_model request) in
  let st' := snd (process_prompt env request st) in
  (llm_providers st' = llm_providers st \/
   exists p, llm_providers st !! handle = None /\
             llm_providers st' = <[handle := p]> (llm_providers st)) /\
  exists engineers0,
    (engineers0 = prompt_engineers st \/
     assoc_get (prompt_engineers st) handle = None /\
     exists p,
       llm_providers st' !! handle = Some p /\
       engineers0 =
         prompt_engineers st ++
         [(handle, mkEngineer p [] (fst (load_enhancement_rules (rules_file env))))]) /\
    (prompt_engineers st' = engineers0 /\ ticks (world st') = ticks (world st) \/
     exists self text,
       assoc_get engineers0 handle = Some self /\
       prompt_engineers st' =
         assoc_set engineers0 handle
           (set_history self
              (enhancement_history self ++
               [mkEnhancement (prompt request) text
                  (time_time env (ticks (world st))) None])) /\
       ticks (world st') = S (ticks (world st))).
Proof.
  intros handle st'. subst st'.
  pose proof (process_prompt_cases env request st) as Hcases.
  pose proof (process_setup_full env request st) as Hsetup.
  destruct (process_setup env request st) as [[[h p]|e] st0].
  2: { subst st0. rewrite Hcases. cbn [snd set_world llm_providers prompt_engineers world].
       split; [now left|]. exists (prompt_engineers st). split; [now left|]. now left. }
  destruct Hsetup as (-> & Hcalls & Hticks & Hp & Hproviders & Hengineers).
  fold handle in Hp, Hproviders, Hengineers, Hcases.
  assert (Hself : is_Some (assoc_get (prompt_engineers st0) handle)).
  { destruct Hengineers as [[-> H]|[Hnone ->]]; [exact H|].
    rewrite assoc_get_app, Hnone, String.eqb_refl. eauto. }
  destruct Hself as [self Hself].
  (* the state after the enhancement step decides everything *)
  assert (Hfinal : exists st1,
            llm_providers (snd (process_prompt env request st)) = llm_providers st1 /\
            prompt_engineers (snd (process_prompt env request st)) = prompt_engineers st1 /\
            ticks (world (snd (process_prompt env request st))) = ticks (world st1) /\
            st1 = snd (process_enhance env request handle st0)).
  { destruct (process_enhance env request handle st0)
      as [[[final_prompt index]|e] st1]; cbv beta iota zeta in Hcases.
    - match type of Hcases with
      | match ?answer with Ok _ => _ | Raise _ => _ end => destruct answer
      end; rewrite Hcases; exists st1; now repeat split.
    - rewrite Hcases. exists st1. now repeat split. }
  destruct Hfinal as (st1 & -> & -> & -> & ->).
  assert (Hstep :
            llm_providers (snd (process_enhance env request handle st0))
              = llm_providers st0 /\
            (prompt_engineers (snd (process_enhance env request handle st0))
               = prompt_engineers st0 /\
             ticks (world (snd (process_enhance env request handle st0)))
               = ticks (world st0) \/
             exists text,
               prompt_engineers (snd (process_enhance env request handle st0)) =
                 assoc_set (prompt_engineers st0) handle
                   (set_history self
                      (enhancement_history self ++
                       [mkEnhancement (prompt request) text
                          (time_time env (ticks (world st0))) None])) /\
               ticks (world (snd (process_enhance env request handle st0)))
                 = S (ticks (world st0)))).
  { destruct (bypass_enhancement request) eqn:Hbypass.
    - unfold process_enhance. rewrite Hbypass. unfold_M. cbn [snd]. split; [reflexivity|].
      now left.
    - rewrite (process_enhance_spec env request handle self st0 Hbypass Hself).
      pose proof (enhance_prompt_cases env self (prompt request) (world st0)) as Henh.
      destruct (enhancement_call self (prompt request)) as [c|e].
      + destruct (generate_response env (calls (world st0)) c) as [text|e];
          rewrite Henh; cbn [snd llm_providers prompt_engineers world ticks].
        * split; [reflexivity|]. right. exists text. now split.
        * split; [reflexivity|]. left.
          now rewrite (assoc_set_same _ _ _ Hself).
      + rewrite Henh. cbn [snd llm_providers prompt_engineers world].
        split; [reflexivity|]. left. now rewrite (assoc_set_same _ _ _ Hself). }
  destruct Hstep as [-> Hstep]. rewrite Hticks in Hstep.
  split.
  { destruct Hproviders as [->|[Hnone ->]]; [now left|]. right. eauto. }
  exists (prompt_engineers st0). split.
  { destruct Hengineers as [[-> _]|[Hnone ->]]; [now left|].
    right. split; [exact Hnone|]. exists p. now split. }
  destruct Hstep as [[-> ->]|[text [-> ->]]]; [now left|].
  right. exists self, text. now repeat split.
Qed.

Lemma assoc_get_None {V} (l : list (string * V)) (k : string) :
  assoc_get l k = None <-> ~ In k (map fst l).
Proof.
  induction l as [|[k0 v] l IH]; simpl; [tauto|].
  destruct (String.eqb_spec k0 k) as [->|Hne].
  - split; [discriminate | intros H; contradiction H; now left].
  - rewrite IH. tauto.
Qed.

Lemma assoc_get_In {V} (l : list (string * V)) (k : string) (v : V) :
  assoc_get l k = Some v -> In (k, v) l.
Proof.
  induction l as [|[k0 v0] l IH]; simpl; [discriminate|].
  destruct (String.eqb_spec k0 k) as [->|Hne].
  - intros H. injection H as ->. now left.
  - intros H. right. now apply IH.
Qed.

Lemma Forall_assoc_set {V} (P : string * V -> Prop) (l : list (string * V))
    (k : string) (v : V) :
  is_Some (assoc_get l k) -> Forall P l -> P (k, v) -> Forall P (assoc_set l k v).
Proof.
  induction l as [|[k0 v0] l IH]; simpl; intros Hsome Hall Hv; [now destruct Hsome|].
  apply Forall_cons in Hall as [Hhd Htl].
  destruct (String.eqb_spec k0 k) as [->|Hne].
  - now constructor.
  - constructor; [exact Hhd | now apply IH].
Qed.

Lemma process_prompt_bound (env : Env) (request : PromptRequest) (st : Server) :
  engineers_bound env st -> engineers_bound env (snd (process_prompt env request st)).
Proof.
  intros [Hnodup Hall].
  destruct (process_prompt_state env request st)
    as (Hproviders & engineers0 & Hfirst & Hsecond).
  set (handle := provider_key_of (provider request) (request_model request)) in *.
  set (st' := snd (process_prompt env request st)) in *.
  set (P := fun entry : string * PromptEngineer =>
              llm_providers st' !! fst entry = Some (llm_provider (snd entry)) /\
              enhancement_rules (snd entry)
                = fst (load_enhancement_rules (rules_file env))).
  assert (Hold : Forall P (prompt_engineers st)).
  { apply Forall_forall. intros [k e] Hin.
    rewrite Forall_forall in Hall. destruct (Hall _ Hin) as [Hk Hrules].
    split; [|exact Hrules]. cbn [fst snd] in *.
    destruct Hproviders as [->|[p [Hnone ->]]]; [exact Hk|].
    rewrite lookup_insert_ne; [exact Hk|]. intros <-. congruence. }
  assert (H0 : NoDup (map fst engineers0) /\ Forall P engineers0).
  { destruct Hfirst as [->|[Hnone [p [Hp ->]]]]; [now split|]. split.
    - rewrite map_app. cbn [map fst]. apply NoDup_app. split; [exact Hnodup|]. split.
      + intros k Hk Hin. apply list_elem_of_In in Hin. destruct Hin as [<-|[]].
        apply assoc_get_None in Hnone. apply Hnone. now apply list_elem_of_In.
      + apply NoDup_singleton.
    - apply Forall_app. split; [exact Hold|]. constructor; [|constructor].
      split; [exact Hp | reflexivity]. }
  destruct H0 as [Hnodup0 Hall0].
  unfold engineers_bound. fold P.
  destruct Hsecond as [[-> _]|(self & text & Hself & -> & _)]; [now split|].
  split.
  - now rewrite assoc_set_keys by eauto.
  - apply Forall_assoc_set; [eauto | exact Hall0 |].
    apply assoc_get_In in Hself. rewrite Forall_forall in Hall0.
    apply list_elem_of_In, Hall0 in Hself. exact Hself.
Qed.

Lemma record_effectiveness_same (self : PromptEngineer) (index rating : Z)
    (w : World) :
  llm_provider (fst (record_effectiveness self index rating w)) = llm_provider self /\
  enhancement_rules (fst (record_effectiveness self index rating w))
    = enhancement_rules self.
Proof.
  rewrite record_effectiveness_engineer. destruct (0 <=? index); now split.
Qed.

Lemma provide_feedback_bound (env : Env) (request : FeedbackRequest) (st : Server) :
  engineers_bound env st -> engineers_bound env (snd (provide_feedback request st)).
Proof.
  intros [Hnodup Hall]. unfold provide_feedback.
  pose proof (record_all_engineers (prompt_engineers st) (feedback_index request)
                (rating request) (world st)) as Heng.
  destruct (record_all _ _ _ _) as [engineers w]. cbn [fst snd] in *. subst engineers.
  unfold engineers_bound. cbn [prompt_engineers llm_providers]. split.
  - rewrite map_map. exact Hnodup.
  - apply Forall_map. eapply Forall_impl; [exact Hall|].
    intros [k e] [Hk Hrules]. cbn [fst snd] in *.
    destruct (record_effectiveness_same e (feedback_index request) (rating request)
                initial_world) as [-> ->].
    now split.
Qed.

(** X22.  Whatever requests and feedbacks the server has handled since
    its start, its registries agree: the handles of the engineers are
    distinct, each engineer holds the provider that is registered under
    its handle, and its rules are the ones loaded from the rule file. *)
Theorem run_engineers_bound (env : Env) (inputs : list Input) :
  engineers_bound env (run env inputs initial_server).
Proof.
  unfold run.
  assert (Hstart : engineers_bound env initial_server).
  { split; [constructor | constructor]. }
  revert Hstart. generalize initial_server.
  induction inputs as [|input inputs IH]; intros st Hst; [exact Hst|].
  cbn [fold_left]. apply IH.
  destruct input as [request|request]; cbn [step].
  - now apply process_prompt_bound.
  - now apply provide_feedback_bound.
Qed.

(* ================================================================== *)
(** * Timestamps                                                       *)
(* ================================================================== *)

Lemma chronological_app (h : list PromptEnhancement) (r : PromptEnhancement) :
  chronological h ->
  Forall (fun earlier => timestamp earlier <= timestamp r) h ->
  chronological (h ++ [r]).
Proof.
  induction h as [|x h IH]; intros Hc Hle.
  - cbn. split; [constructor | exact I].
  - cbn [chronological app] in *. destruct Hc as [Hx Hc].
    apply Forall_cons in Hle as [Hxr Hle]. split.
    + apply Forall_app. split; [exact Hx|]. constructor; [exact Hxr | constructor].
    + now apply IH.
Qed.

Lemma alter_set_rating_timestamps (h : list PromptEnhancement) (i : nat) (rating : Z) :
  map timestamp (alter (set_rating rating) i h) = map timestamp h.
Proof.
  revert i. induction h as [|x h IH]; intros [|i]; cbn; try reflexivity.
  now rewrite IH.
Qed.

Lemma chronological_timestamps (h k : list PromptEnhancement) :
  map timestamp h = map timestamp k -> chronological h -> chronological k.
Proof.
  revert k. induction h as [|x h IH]; intros [|y k] Heq; try discriminate;
    [trivial|].
  cbn [map] in Heq. injection Heq as Hxy Heq. cbn [chronological].
  intros [Hx Hc]. split; [|now apply IH].
  rewrite Hxy in Hx. clear -Hx Heq.
  apply Forall_forall. intros later Hin.
  assert (Hts : In (timestamp later) (map timestamp h)).
  { rewrite Heq. apply in_map, list_elem_of_In, Hin. }
  apply in_map_iff in Hts as (z & Hz & Hzin).
  rewrite Forall_forall in Hx. rewrite <- Hz. apply Hx, list_elem_of_In, Hzin.
Qed.

Lemma timeline_later (env : Env) (t t' : nat) (h : list PromptEnhancement) :
  (t <= t')%nat -> timeline env t h -> timeline env t' h.
Proof.
  intros Hle [Hstamped Hc]. split; [|exact Hc].
  eapply Forall_impl; [exact Hstamped|].
  intros r [n [Hn Hr]]. exists n. split; [lia | exact Hr].
Qed.

Lemma timeline_append (env : Env) (t : nat) (h : list PromptEnhancement)
    (original enhanced : string) :
  clock_monotone env -> timeline env t h ->
  timeline env (S t) (h ++ [mkEnhancement original enhanced (time_time env t) None]).
Proof.
  intros Hclock [Hstamped Hc]. split.
  - apply Forall_app. split.
    + eapply Forall_impl; [exact Hstamped|].
      intros r [n [Hn Hr]]. exists n. split; [lia | exact Hr].
    + constructor; [|constructor]. exists t. split; [lia | reflexivity].
  - apply chronological_app; [exact Hc|].
    eapply Forall_impl; [exact Hstamped|].
    intros r [n [Hn ->]]. cbn [timestamp]. apply Hclock. lia.
Qed.

Lemma timeline_rated (env : Env) (t : nat) (h : list PromptEnhancement)
    (i : nat) (rating : Z) :
  timeline env t h -> timeline env t (alter (set_rating rating) i h).
Proof.
  intros [Hstamped Hc]. split.
  - revert i. induction Hstamped as [|x h Hx Hh IH]; intros [|i]; cbn.
    + constructor.
    + constructor.
    + constructor; [exact Hx | exact Hh].
    + constructor; [exact Hx | apply IH]. now destruct Hc.
  - apply (chronological_timestamps h); [|exact Hc].
    symmetry. apply alter_set_rating_timestamps.
Qed.

Lemma process_prompt_timeline (env : Env) (request : PromptRequest) (st : Server) :
  clock_monotone env ->
  Forall (fun entry => timeline env (ticks (world st)) (enhancement_history (snd entry)))
         (prompt_engineers st) ->
  Forall (fun entry =>
            timeline env (ticks (world (snd (process_prompt env request st))))
                     (enhancement_history (snd entry)))
         (prompt_engineers (snd (process_prompt env request st))).
Proof.
  intros Hclock Hall.
  destruct (process_prompt_state env request st)
    as (_ & engineers0 & Hfirst & Hsecond).
  set (handle := provider_key_of (provider request) (request_model request)) in *.
  assert (H0 : Forall (fun entry =>
                         timeline env (ticks (world st))
                                  (enhancement_history (snd entry))) engineers0).
  { destruct Hfirst as [->|[_ [p [_ ->]]]]; [exact Hall|].
    apply Forall_app. split; [exact Hall|]. constructor; [|constructor].
    cbn [snd enhancement_history]. split; [constructor | exact I]. }
  destruct Hsecond as [[-> ->]|(self & text & Hself & -> & ->)]; [exact H0|].
  apply Forall_assoc_set; [eauto | |].
  - eapply Forall_impl; [exact H0|]. intros entry H.
    apply (timeline_later env (ticks (world st))); [lia | exact H].
  - cbn [snd set_history enhancement_history]. apply timeline_append; [exact Hclock|].
    apply assoc_get_In in Hself. rewrite Forall_forall in H0.
    apply list_elem_of_In, H0 in Hself. exact Hself.
Qed.

Lemma provide_feedback_timeline (env : Env) (request : FeedbackRequest) (st : Server) :
  Forall (fun entry => timeline env (ticks (world st)) (enhancement_history (snd entry)))
         (prompt_engineers st) ->
  Forall (fun entry =>
            timeline env (ticks (world (snd (provide_feedback request st))))
                     (enhancement_history (snd entry)))
         (prompt_engineers (snd (provide_feedback request st))).
Proof.
  intros Hall. unfold provide_feedback.
  pose proof (record_all_engineers (prompt_engineers st) (feedback_index request)
                (rating request) (world st)) as Heng.
  pose proof (record_all_calls (prompt_engineers st) (feedback_index request)
                (rating request) (world st)) as [_ Hticks].
  destruct (record_all _ _ _ _) as [engineers w]. cbn [fst snd] in *. subst engineers.
  cbn [prompt_engineers world]. rewrite Hticks.
  apply Forall_map. eapply Forall_impl; [exact Hall|].
  intros [k e] H. cbn [fst snd] in *.
  rewrite record_effectiveness_engineer.
  destruct (0 <=? feedback_index request); [|exact H].
  cbn [set_history enhancement_history]. now apply timeline_rated.
Qed.

(** X23.  With a clock that never goes back, every history is
    chronological at any time: whatever requests and feedbacks the
    server has handled since its start, the timestamps of each history
    never decrease from one record to the next. *)
Theorem run_chronological (env : Env) (inputs : list Input) (handle : string) :
  clock_monotone env ->
  chronological (history_of (run env inputs initial_server) handle).
Proof.
  intros Hclock.
  assert (Hall : forall st,
            Forall (fun entry =>
                      timeline env (ticks (world st)) (enhancement_history (snd entry)))
                   (prompt_engineers st) ->
            Forall (fun entry =>
                      timeline env (ticks (world (run env inputs st)))
                               (enhancement_history (snd entry)))
                   (prompt_engineers (run env inputs st))).
  { unfold run. induction inputs as [|input inputs IH]; intros st Hst; [exact Hst|].
    cbn [fold_left]. apply IH.
    destruct input as [request|request]; cbn [step].
    - now apply process_prompt_timeline.
    - now apply provide_feedback_timeline. }
  specialize (Hall initial_server ltac:(constructor)).
  unfold history_of.
  destruct (assoc_get (prompt_engineers (run env inputs initial_server)) handle)
    as [engineer|] eqn:Hget; [|exact I].
  apply assoc_get_In in Hget. rewrite Forall_forall in Hall.
  apply list_elem_of_In, Hall in Hget. exact (proj2 Hget).
Qed.

Lemma run_chronological_witness :
  map timestamp
      (history_of
         (run echo_env [Process debug_request; Feedback (mkFeedbackRequest 0 5);
                        Process (hello_request false)] initial_server)
         "openai_default") = [0; 1] /\
  chronological
    (history_of
       (run echo_env [Process debug_request; Feedback (mkFeedbackRequest 0 5);
                      Process (hello_request false)] initial_server)
       "openai_default").
Proof.
  split; [reflexivity|].
  apply (run_chronological echo_env).
  intros n m H. cbn [time_time echo_env]. lia.
Defined.

(* ================================================================== *)
(** * A failed answer after a successful enhancement                   *)
(* ================================================================== *)

Lemma process_prompt_after_enhance (env : Env) (request : PromptRequest)
    (st st0 st1 : Server) (handle : string) (p : LLMProvider)
    (final_prompt : string) (index : option Z) :
  process_setup env request st = (Ok (handle, p), st0) ->
  process_enhance env request handle st0 = (Ok (final_prompt, index), st1) ->
  let c2 := mkCall p final_prompt (options request) in
  prompt_engineers (snd (process_prompt env request st)) = prompt_engineers st1 /\
  calls (world (snd (process_prompt env request st))) = calls (world st1) ++ [c2] /\
  fst (process_prompt env request st) =
    match generate_response env (calls (world st1)) c2 with
    | Ok llm_response => Returned (mkPromptResponse llm_response index)
    | Raise e => HTTPException 500 (exc_str e)
    end.
Proof.
  intros Hsetup Henh.
  pose proof (process_prompt_cases env request st) as H.
  rewrite Hsetup, Henh in H. cbv zeta in H |- *.
  destruct (generate_response env (calls (world st1)) _); rewrite H; now repeat split.
Qed.

Lemma process_enhance_outcome (env : Env) (request : PromptRequest) (handle : string)
    (self : PromptEngineer) (st0 : Server) :
  bypass_enhancement request = false ->
  assoc_get (prompt_engineers st0) handle = Some self ->
  match enhancement_call self (prompt request) with
  | Raise e =>
      fst (process_enhance env request handle st0) = Raise e /\
      calls (world (snd (process_enhance env request handle st0))) = calls (world st0)
  | Ok c =>
      exists st1,
        calls (world st1) = calls (world st0) ++ [c] /\
        match generate_response env (calls (world st0)) c with
        | Ok text =>
            let record := mkEnhancement (prompt request) text
                            (time_time env (ticks (world st0))) None in
            process_enhance env request handle st0 =
              (Ok (text,
                   Some (Z.of_nat (length (enhancement_history self ++ [record])) - 1)),
               st1) /\
            assoc_get (prompt_engineers st1) handle =
              Some (set_history self (enhancement_history self ++ [record]))
        | Raise e =>
            process_enhance env request handle st0 =
              (Ok (prompt request,
                   Some (Z.of_nat (length (enhancement_history self)) - 1)), st1) /\
            assoc_get (prompt_engineers st1) handle = Some self
        end
  end.
Proof.
  intros Hbypass Hself.
  rewrite (process_enhance_spec env request handle self st0 Hbypass Hself).
  pose proof (enhance_prompt_cases env self (prompt request) (world st0)) as Henh.
  destruct (enhancement_call self (prompt request)) as [c|e].
  - destruct (generate_response env (calls (world st0)) c) as [text|e];
      rewrite Henh; eexists; (split; [|split; [reflexivity|]]);
      cbn [world calls prompt_engineers]; try reflexivity;
      rewrite assoc_get_set, String.eqb_refl by eauto; reflexivity.
  - rewrite Henh. now split.
Qed.

(** A request that is not bypassed and that made two adapter calls,
    unfolded: the result and the history follow from the answers to
    the two calls. *)
Lemma process_prompt_two_calls (env : Env) (request : PromptRequest) (st : Server)
    (c1 c2 : Call) :
  bypass_enhancement request = false ->
  calls (world (snd (process_prompt env request st))) = calls (world st) ++ [c1; c2] ->
  let handle := provider_key_of (provider request) (request_model request) in
  let st' := snd (process_prompt env request st) in
  exists added : list PromptEnhancement,
    history_of st' handle = history_of st handle ++ added /\
    fst (process_prompt env request st) =
      match generate_response env (calls (world st) ++ [c1]) c2 with
      | Ok llm_response =>
          Returned (mkPromptResponse llm_response
                      (Some (Z.of_nat (length (history_of st' handle)) - 1)))
      | Raise e => HTTPException 500 (exc_str e)
      end /\
    match generate_response env (calls (world st)) c1 with
    | Ok text =>
        call_prompt c2 = text /\
        added = [mkEnhancement (prompt request) text
                   (time_time env (ticks (world st))) None]
    | Raise e => call_prompt c2 = prompt request /\ added = []
    end.
Proof.
  intros Hbypass Hcalls handle st'. subst st'.
  assert (Hno : forall w : list Call, w = w ++ [c1; c2] -> False).
  { intros w H. apply (f_equal length) in H. rewrite length_app in H.
    cbn [length] in H. lia. }
  pose proof (process_prompt_cases env request st) as Hcases.
  pose proof (process_setup_detail env request st) as Hsetup.
  destruct (process_setup env request st) as [[[h p]|e] st0] eqn:Hst0.
  2: { subst st0. rewrite Hcases in Hcalls. cbn in Hcalls. now apply Hno in Hcalls. }
  destruct Hsetup as (-> & Hcalls0 & Hticks & Hengineers).
  fold handle in Hengineers, Hcases, Hst0.
  assert (Hself : exists self,
            assoc_get (prompt_engineers st0) handle = Some self /\
            enhancement_history self = history_of st handle).
  { unfold history_of.
    destruct Hengineers as [[-> [self H]]|[Hnone [self [-> Hempty]]]].
    - exists self. now rewrite H.
    - exists self. rewrite assoc_get_app, Hnone, String.eqb_refl. now split. }
  destruct Hself as (self & Hself & Hhistory).
  pose proof (process_enhance_outcome env request handle self st0 Hbypass Hself) as Hout.
  destruct (enhancement_call self (prompt request)) as [c|e].
  2: { destruct Hout as [Hraise Hsame].
       destruct (process_enhance env request handle st0) as [[[f i]|e'] st1];
         cbn [fst snd] in Hraise, Hsame; [discriminate Hraise|].
       rewrite Hcases in Hcalls. cbn [snd set_world world log calls] in Hcalls.
       rewrite Hsame, Hcalls0 in Hcalls. now apply Hno in Hcalls. }
  destruct Hout as (st1 & Hcalls1 & Hout).
  rewrite Hcalls0, Hticks in *.
  destruct (generate_response env (calls (world st)) c) as [text|e] eqn:Hg;
    destruct Hout as [Henh Hget];
    destruct (process_prompt_after_enhance env request st st0 st1 handle p _ _
                Hst0 Henh) as (Hengs & Hcalls2 & Hresult);
    cbv zeta in Hcalls2, Hresult;
    rewrite Hcalls2, Hcalls1, <- app_assoc in Hcalls;
    apply app_inv_head in Hcalls; cbn [app] in Hcalls; injection Hcalls as <- <-;
    rewrite Hcalls1 in Hresult; rewrite Hresult;
    unfold history_of at 1 3; rewrite Hengs, Hget;
    cbn [set_history enhancement_history call_prompt]; rewrite ?Hhistory, ?Hg.
  - eexists. split; [reflexivity|]. now split.
  - exists []. rewrite app_nil_r. now split.
Qed.

(** X24.  The record of a successful enhancement stays when the answer
    fails.  If the first of two adapter calls of a request was answered
    with [text] and the second raised, the caller gets the HTTP error
    500 with the description of that failure and no index, while the
    history has one more record, with the prompt and [text]. *)
Theorem enhancement_recorded_without_answer (env : Env) (request : PromptRequest)
    (st : Server) (c1 c2 : Call) (text : string) (e : Exception) :
  bypass_enhancement request = false ->
  calls (world (snd (process_prompt env request st))) = calls (world st) ++ [c1; c2] ->
  generate_response env (calls (world st)) c1 = Ok text ->
  generate_response env (calls (world st) ++ [c1]) c2 = Raise e ->
  let handle := provider_key_of (provider request) (request_model request) in
  fst (process_prompt env request st) = HTTPException 500 (exc_str e) /\
  exists record,
    history_of (snd (process_prompt env request st)) handle
      = history_of st handle ++ [record] /\
    original_prompt record = prompt request /\
    enhanced_prompt record = text /\
    effectiveness_rating record = None.
Proof.
  intros Hbypass Hcalls Hg Hfinal handle.
  destruct (process_prompt_two_calls env request st c1 c2 Hbypass Hcalls)
    as (added & Hhist & Hresult & Hcase).
  fold handle in Hhist, Hresult. rewrite Hfinal in Hresult. rewrite Hg in Hcase.
  destruct Hcase as [_ ->]. split; [exact Hresult|].
  eexists. split; [exact Hhist|]. now repeat split.
Qed.

Lemma enhancement_recorded_without_answer_witness :
  fst (process_prompt one_answer_env (hello_request false) initial_server)
    = HTTPException 500 "503 Server Error" /\
  history_of (snd (process_prompt one_answer_env (hello_request false) initial_server))
    "openai_default"
    = [mkEnhancement "hello" "Fixed prompt text" 0 None] /\
  exists record,
    history_of (snd (process_prompt one_answer_env (hello_request false) initial_server))
      "openai_default"
      = history_of initial_server "openai_default" ++ [record] /\
    original_prompt record = "hello" /\
    enhanced_prompt record = "Fixed prompt text" /\
    effectiveness_rating record = None.
Proof.
  split; [reflexivity|]. split; [reflexivity|].
  eapply proj2.
  eapply (enhancement_recorded_without_answer one_answer_env (hello_request false)
            initial_server) with (e := mkException "HTTPError" "503 Server Error").
  - reflexivity.
  - vm_compute. reflexivity.
  - vm_compute. reflexivity.
  - vm_compute. reflexivity.
Defined.

(* ================================================================== *)
(** * The connectors' requests and the client                          *)
(* ================================================================== *)

(** X25.  The defaults of the connectors for the model are never used
    by the middleware, which always passes the model of the request: a
    provider created for a request without model has no model.  An
    OpenAI or Anthropic request of such a provider carries the model
    given in the options of the call, and null when they give none;
    a Hugging Face request goes to the URL that ends in
    [models/None], whatever the options. *)
Theorem provider_without_model (env : Env) (name : string) (key : Any)
    (st st1 : Server) (provider_id : string) (p : LLMProvider) :
  llm_providers st !! provider_key_of name None = None ->
  get_or_create_provider env name key None st = (Ok (provider_id, p), st1) ->
  model p = None /\
  forall (prompt : string) (given : gmap string Any),
    match request_body p prompt given with
    | OpenAIBody body_model _ _ _ _ =>
        connector p = OpenAIConnector /\
        body_model = default ANone (given !! "model")
    | AnthropicBody body_model _ _ _ _ =>
        connector p = AnthropicConnector /\
        body_model = default ANone (given !! "model")
    | HuggingFaceBody _ _ _ =>
        connector p = HuggingFaceConnector /\
        base_url p = "https://api-inference.huggingface.co/models/None"
    end.
Proof.
  intros Hcache H. unfold get_or_create_provider in H. rewrite Hcache in H.
  destruct (connector_class name) as [cls|]; [|discriminate H].
  rewrite new_connector_spec in H.
  assert (Hp : model p = None /\ connector p = cls).
  { destruct (truthy key).
    - injection H as _ <- _. now split.
    - destruct (getenv env (api_key_variable cls)) as [v|]; [|discriminate H].
      destruct (String.eqb v ""); [discriminate H|].
      injection H as _ <- _. now split. }
  destruct Hp as [Hmodel Hcls]. split; [exact Hmodel|].
  intros prompt given.
  unfold request_body, base_url, options_get. rewrite Hmodel.
  destruct (connector p); split; reflexivity.
Qed.

Lemma provider_without_model_witness :
  let openai := mkProvider OpenAIConnector (AStr "sk-test") None in
  let huggingface := mkProvider HuggingFaceConnector (AStr "hf-key") None in
  (request_body openai "hi" {[ "model" := AStr "gpt-4o" ]}
     = OpenAIBody (AStr "gpt-4o") (AStr "You are a helpful assistant.") "hi" None
         (AInt 1000) /\
   request_body openai "hi" ∅
     = OpenAIBody ANone (AStr "You are a helpful assistant.") "hi" None (AInt 1000) /\
   request_body huggingface "hi" {[ "model" := AStr "gpt2" ]}
     = HuggingFaceBody "hi" (AInt 1000) None) /\
  (model openai = None /\
   forall (prompt : string) (given : gmap string Any),
     match request_body openai prompt given with
     | OpenAIBody body_model _ _ _ _ =>
         connector openai = OpenAIConnector /\
         body_model = default ANone (given !! "model")
     | AnthropicBody body_model _ _ _ _ =>
         connector openai = AnthropicConnector /\
         body_model = default ANone (given !! "model")
     | HuggingFaceBody _ _ _ =>
         connector openai = HuggingFaceConnector /\
         base_url openai = "https://api-inference.huggingface.co/models/None"
     end) /\
  (model huggingface = None /\
   forall (prompt : string) (given : gmap string Any),
     match request_body huggingface prompt given with
     | OpenAIBody body_model _ _ _ _ =>
         connector huggingface = OpenAIConnector /\
         body_model = default ANone (given !! "model")
     | AnthropicBody body_model _ _ _ _ =>
         connector huggingface = AnthropicConnector /\
         body_model = default ANone (given !! "model")
     | HuggingFaceBody _ _ _ =>
         connector huggingface = HuggingFaceConnector /\
         base_url huggingface = "https://api-inference.huggingface.co/models/None"
     end).
Proof.
  cbv zeta. split; [|split].
  - repeat split.
  - apply (provider_without_model echo_env "openai" (AStr "sk-test")
             initial_server
             (snd (get_or_create_provider echo_env "openai" (AStr "sk-test") None
                     initial_server))
             "openai_default").
    + reflexivity.
    + reflexivity.
  - apply (provider_without_model echo_env "huggingface" (AStr "hf-key")
             initial_server
             (snd (get_or_create_provider echo_env "huggingface" (AStr "hf-key") None
                     initial_server))
             "huggingface_default").
    + reflexivity.
    + reflexivity.
Defined.

(** X26.  The request of the enhancement call.  A call that
    [enhance_prompt] places goes to the engineer's provider, and its
    only option is the system prompt of the rule for the detected
    category.  So it always goes out with the default temperature and
    token limit and the provider's own model, whatever the options of
    the user's request; OpenAI and Anthropic get the rule's system
    prompt, Hugging Face gets the meta-prompt alone. *)
Theorem enhancement_request_body (env : Env) (self : PromptEngineer)
    (prompt : string) (w : World) (c : Call) :
  calls (snd (enhance_prompt env self prompt w)) = calls w ++ [c] ->
  exists rule,
    enhancement_rules self !! detect_prompt_type prompt = Some rule /\
    format (template rule) prompt = Ok (call_prompt c) /\
    call_provider c = llm_provider self /\
    request_body (call_provider c) (call_prompt c) (call_options c) =
    match connector (llm_provider self) with
    | OpenAIConnector =>
        OpenAIBody (model_value (model (llm_provider self)))
                   (AStr (system_prompt rule)) (call_prompt c) None (AInt 1000)
    | AnthropicConnector =>
        AnthropicBody (model_value (model (llm_provider self))) (call_prompt c)
                      (AInt 1000) None (AStr (system_prompt rule))
    | HuggingFaceConnector => HuggingFaceBody (call_prompt c) (AInt 1000) None
    end.
Proof.
  intros Hcalls. apply enhance_prompt_placed_call in Hcalls.
  unfold enhancement_call in Hcalls.
  destruct (enhancement_rules self !! detect_prompt_type prompt) as [rule|];
    [|discriminate].
  destruct (format (template rule) prompt) as [meta_prompt|e] eqn:Hformat;
    [|discriminate].
  injection Hcalls as <-. exists rule. split; [reflexivity|].
  split; [exact Hformat|]. split; [reflexivity|].
  unfold request_body, options_get. cbn [call_provider call_prompt call_options].
  rewrite lookup_singleton_eq.
  rewrite !lookup_singleton_ne by discriminate.
  destruct (connector (llm_provider self)); reflexivity.
Qed.

Lemma enhancement_request_body_witness :
  exists rule,
    enhancement_rules (fresh_engineer echo_env) !! detect_prompt_type "hello"
      = Some rule /\
    format (template rule) "hello" = Ok (call_prompt hello_meta_call) /\
    call_provider hello_meta_call = llm_provider (fresh_engineer echo_env) /\
    request_body (call_provider hello_meta_call) (call_prompt hello_meta_call)
      (call_options hello_meta_call)
    = OpenAIBody ANone (AStr (system_prompt rule)) (call_prompt hello_meta_call)
        None (AInt 1000).
Proof.
  apply (enhancement_request_body echo_env (fresh_engineer echo_env) "hello"
           initial_world hello_meta_call).
  vm_compute. reflexivity.
Defined.

Lemma client_api_key_variable (client_getenv : string -> option string)
    (provider_name : string) :
  client_api_key client_getenv provider_name =
  match connector_class provider_name with
  | Some cls =>
      Some match client_getenv (api_key_variable cls) with
           | Some v => AStr v
           | None => ANone
           end
  | None => None
  end.
Proof.
  unfold client_api_key, connector_class.
  destruct (String.eqb (lower provider_name) "openai"); [reflexivity|].
  destruct (String.eqb (lower provider_name) "anthropic"); [reflexivity|].
  destruct (String.eqb (lower provider_name) "huggingface"); reflexivity.
Qed.

(** X27.  Client and server together.  The client never replaces an
    [api_key] that the caller put in the options and keeps every other
    option.  When the caller gave none, the key of the client's
    environment travels in the payload, and a server that has no
    provider yet under the key of the request builds the provider with
    it, whatever its own environment holds; when the client's variable
    is unset as well, the server falls back to its own variable. *)
Theorem client_key_reaches_server (client_getenv : string -> option string)
    (env : Env) (text provider_name : string) (model : option string)
    (given : option (gmap string Any)) (bypass : bool) (st : Server)
    (cls : ConnectorClass) :
  let request :=
    client_process_payload client_getenv text provider_name model given bypass in
  let attempt :=
    get_or_create_provider env (provider request)
      (default ANone (options request !! "api_key")) (request_model request) st in
  connector_class provider_name = Some cls ->
  llm_providers st !! provider_key_of provider_name model = None ->
  (forall key,
     key <> "api_key" ->
     options request !! key = default ∅ given !! key) /\
  (forall v,
     default ∅ given !! "api_key" = Some v ->
     options request = default ∅ given) /\
  (default ∅ given !! "api_key" = None ->
   forall k,
     client_getenv (api_key_variable cls) = Some k -> k <> "" ->
     fst attempt = Ok (provider_key_of provider_name model,
                       mkProvider cls (AStr k) model)) /\
  (default ∅ given !! "api_key" = None ->
   client_getenv (api_key_variable cls) = None ->
   forall k,
     getenv env (api_key_variable cls) = Some k -> k <> "" ->
     fst attempt = Ok (provider_key_of provider_name model,
                       mkProvider cls (AStr k) model)).
Proof.
  intros request attempt Hcls Hcache. subst attempt request.
  unfold client_process_payload.
  rewrite client_api_key_variable, Hcls.
  cbn [provider request_model options].
  repeat split.
  - intros key Hkey.
    destruct (default ∅ given !! "api_key"); [reflexivity|].
    now rewrite lookup_insert_ne by congruence.
  - intros v Hv. now rewrite Hv.
  - intros Hnone k Hk Hne. rewrite Hnone, Hk, lookup_insert_eq.
    change (default ANone (Some (AStr k))) with (AStr k).
    unfold get_or_create_provider.
    rewrite Hcache, Hcls, new_connector_spec. cbn [truthy].
    destruct (String.eqb_spec k ""); [now contradiction Hne | reflexivity].
  - intros Hnone Hclient k Hk Hne. rewrite Hnone, Hclient, lookup_insert_eq.
    change (default ANone (Some ANone)) with ANone.
    unfold get_or_create_provider.
    rewrite Hcache, Hcls, new_connector_spec. cbn [truthy]. rewrite Hk.
    destruct (String.eqb_spec k ""); [now contradiction Hne | reflexivity].
Qed.

Lemma client_key_reaches_server_witness :
  let client_getenv := fun name =>
    if String.eqb name "OPENAI_API_KEY" then Some "sk-client" else None in
  fst (get_or_create_provider echo_env "openai"
         (default ANone
            (options
               (client_process_payload client_getenv "hello" "openai" None None false)
             !! "api_key"))
         None initial_server)
  = Ok ("openai_default", mkProvider OpenAIConnector (AStr "sk-client") None).
Proof.
  intros client_getenv.
  refine (proj1 (proj2 (proj2
            (client_key_reaches_server client_getenv echo_env "hello" "openai" None
               None false initial_server OpenAIConnector eq_refl eq_refl)))
            eq_refl "sk-client" eq_refl _).
  discriminate.
Defined.
